(** * Student_Wellbeing_App: the persistence layer

    A shallow embedding of
      - core/database/connection.py  (get_db_connection, get_db_pool)
      - core/database/migrations.py  (run_migrations and its nine DDL statements)
      - core/models/*.py             (Student, AttendanceRecord, AttendanceStatus,
                                      Alert, AuditLog)

    The Python code talks to SQLite through the sqlite3 module.  The engine is
    not part of the repository, so the part of its documented behaviour that
    the code relies on is modelled here as pure functions on a store
    ([exec_create], [exec_insert], [exec_select_all]); the Python functions
    are then written in a small state-and-exception monad over a [world]
    that holds the store, the connection objects and the diagnostic output. *)

From stdpp Require Import gmap strings list fin_maps relations sorting.
From Stdlib Require Import ZArith Ascii.

Local Open Scope string_scope.

(** ** SQL data: values, column types, DDL syntax *)

(** A storage value.  REAL literals are kept as a decimal mantissa and
    exponent; no claim needs arithmetic on them. *)
Inductive value :=
| NULL
| VInt (n : Z)
| VText (s : string)
| VReal (mantissa exponent : Z).

Inductive sqltype := TEXT | INTEGER | REAL | DATE | DATETIME.

Inductive column_constraint := PRIMARY_KEY | AUTOINCREMENT | UNIQUE | NOT_NULL.

Record column_def := Column {
  cd_name : string;
  cd_type : sqltype;
  cd_constraints : list column_constraint
}.

(** [FOREIGN KEY (col) REFERENCES ref_table(ref_col)] *)
Inductive table_constraint :=
| FOREIGN_KEY (col ref_table ref_col : string).

(** [CREATE TABLE [IF NOT EXISTS] name (columns, constraints)] *)
Record create_table := CreateTable {
  ct_if_not_exists : bool;
  ct_name : string;
  ct_columns : list column_def;
  ct_constraints : list table_constraint
}.

#[global] Instance value_eq_dec : EqDecision value.
Proof. solve_decision. Defined.
#[global] Instance sqltype_eq_dec : EqDecision sqltype.
Proof. solve_decision. Defined.
#[global] Instance column_constraint_eq_dec : EqDecision column_constraint.
Proof. solve_decision. Defined.
#[global] Instance column_def_eq_dec : EqDecision column_def.
Proof. solve_decision. Defined.
#[global] Instance table_constraint_eq_dec : EqDecision table_constraint.
Proof. solve_decision. Defined.

(** ** The store *)

(** SQLite finds tables, indexes and columns by name whatever the letter
    case of the ASCII letters in it; [canon] is the form under which a name
    is compared. *)
Definition lower (c : ascii) : ascii :=
  let n := N_of_ascii c in
  if ((65 <=? n) && (n <=? 90))%N then ascii_of_N (n + 32) else c.

Fixpoint canon (s : string) : string :=
  match s with
  | EmptyString => EmptyString
  | String c s' => String (lower c) (canon s')
  end.

(** A table as the engine keeps it: the declaration it was created with,
    its rows (in insertion order, one value per column) and the largest
    key ever handed out for an AUTOINCREMENT column. *)
Record table := Table {
  t_columns : list column_def;
  t_constraints : list table_constraint;
  t_rows : list (list value);
  t_seq : Z
}.

(** The schema catalogue maps a name to a table, a view or an index.  An
    object is listed under the [canon] form of its name, so a table created
    as STUDENT is the entry "student".  Views and indexes are never created
    by this code base, but a store it is pointed at may hold them, and
    CREATE TABLE reacts to them.  What the engine keeps for itself (the
    sqlite_sequence table behind AUTOINCREMENT, the automatic indexes
    behind PRIMARY KEY and UNIQUE) is not listed in the catalogue: [t_seq]
    and the declarations stand for it. *)
Inductive schema_object :=
| OTable (t : table)
| OView
| OIndex (on_table : string).

Abbreviation store := (gmap string schema_object).

(** The key under which the catalogue lists the object a name stands for:
    the [canon] form of the name (a name that is itself a key stands for
    that key, which in a catalogue of canonical keys is the same thing). *)
Definition key_of (s : store) (name : string) : string :=
  if decide (is_Some (s !! name)) then name else canon name.

(** The object a name stands for. *)
Definition find_object (s : store) (name : string) : option schema_object :=
  s !! key_of s name.

#[global] Instance table_eq_dec : EqDecision table.
Proof. solve_decision. Defined.
#[global] Instance schema_object_eq_dec : EqDecision schema_object.
Proof. solve_decision. Defined.

(** ** Python exceptions raised by sqlite3 and by row access *)

Inductive constraint_failure :=
| UNIQUE_failed (tbl col : string)
| NOT_NULL_failed (tbl col : string)
| FOREIGN_KEY_failed
| datatype_mismatch.

Inductive operational_failure :=
| index_already_named (name : string)
| table_already_exists (name : string)
| no_such_table (name : string)
| cannot_modify_view (name : string)
| wrong_value_count (tbl : string) (columns supplied : nat)
| foreign_key_mismatch (child parent : string)
| database_is_locked
| database_or_disk_is_full.

Inductive exn :=
| IntegrityError (c : constraint_failure)
| OperationalError (o : operational_failure)
| ProgrammingError_closed
| TypeError
| IndexError.

Inductive result (A : Type) :=
| Ok (a : A)
| Raise (e : exn).
Arguments Ok {A} a.
Arguments Raise {A} e.

(** ** The engine

    The functions below follow the SQLite documentation for the statements
    this code base and its tests send.  Standing assumptions: the store
    file can be opened and read; values are given, and held, in the form the
    column stores them (the conversions of column affinity are not
    modelled; the statements about rows say which form they need);
    integers fit in 64 bits (sqlite3 refuses to bind others); a statement
    that goes through takes effect at once (transactions are not
    modelled).  [busy] says that the write lock of the store is held by
    somebody else, the one way in which a statement of this code base can
    fail for reasons outside the store's contents. *)

Definition has_constraint (k : column_constraint) (c : column_def) : bool :=
  bool_decide (k ∈ cd_constraints c).

Definition new_table (c : create_table) : table :=
  {| t_columns := ct_columns c; t_constraints := ct_constraints c;
     t_rows := []; t_seq := 0%Z |}.

(** CREATE TABLE, as the SQLite documentation describes it: an existing
    table or view of that name is an error unless IF NOT EXISTS is given, in
    which case the statement has no effect; an existing index of that name
    is an error even with IF NOT EXISTS.  Creating the table writes to the
    store and fails when the write lock is held by somebody else. *)
Definition exec_create (busy : bool) (c : create_table) (s : store) : result store :=
  match find_object s (ct_name c) with
  | Some (OTable _) | Some OView =>
      if ct_if_not_exists c then Ok s
      else Raise (OperationalError (table_already_exists (ct_name c)))
  | Some (OIndex _) => Raise (OperationalError (index_already_named (ct_name c)))
  | None =>
      if busy then Raise (OperationalError database_is_locked)
      else Ok (<[canon (ct_name c) := OTable (new_table c)]> s)
  end.

(** Position of a column in a declaration. *)
Fixpoint column_index (name : string) (cols : list column_def) : option nat :=
  match cols with
  | [] => None
  | c :: cols' =>
      if decide (canon (cd_name c) = canon name) then Some 0
      else S <$> column_index name cols'
  end.

(** The value a row holds at a position (NULL past its end). *)
Definition cell (r : list value) (i : nat) : value := default NULL (r !! i).

(** The values stored in one column. *)
Definition column_values (rows : list (list value)) (i : nat) : list value :=
  (λ r, cell r i) <$> rows.

(** An INTEGER PRIMARY KEY column is the row key. *)
Definition is_row_key (c : column_def) : bool :=
  bool_decide (cd_type c = INTEGER) && has_constraint PRIMARY_KEY c.

Definition int_of (v : value) : Z := match v with VInt n => n | _ => 0%Z end.

(** The largest signed 64-bit integer, the last key there is. *)
Definition max_rowid : Z := 9223372036854775807.

(** The largest integer key stored in a column, if there is one. *)
Definition largest_key (rows : list (list value)) (i : nat) : option Z :=
  foldr (λ v acc,
           match v, acc with
           | VInt n, Some m => Some (Z.max n m)
           | VInt n, None => Some n
           | _, _ => acc
           end) None (column_values rows i).

(** The key the engine picks for a row that brings none: one more than the
    largest key stored (1 in an empty table) and, under AUTOINCREMENT, more
    than the largest key ever used.  When the last key is taken an
    AUTOINCREMENT table is full.  (Without AUTOINCREMENT the engine then
    tries keys at random; that search is outside the model, which answers
    as if it had failed.  No table of this code base is of that kind.) *)
Definition next_key (autoincrement : bool) (t : table) (i : nat) : result Z :=
  let stored := largest_key (t_rows t) i in
  if match stored with Some k => bool_decide (max_rowid ≤ k)%Z | None => false end
     || (autoincrement && bool_decide (max_rowid ≤ t_seq t)%Z)
  then Raise (OperationalError database_or_disk_is_full)
  else
    let base := match stored with Some k => (k + 1)%Z | None => 1%Z end in
    Ok (if autoincrement then Z.max base (t_seq t + 1) else base).

(** Key assignment: a NULL in the row-key column is replaced by the next
    key; an integer is kept; anything else is a datatype mismatch.  (A
    text or real that the engine would first convert to an integer is not
    in storage form and outside the model.) *)
Fixpoint assign_row_key (t : table) (cols : list column_def) (i : nat)
    (r : list value) : result (list value) :=
  match cols, r with
  | c :: cols', v :: r' =>
      if is_row_key c then
        match v with
        | NULL =>
            match next_key (has_constraint AUTOINCREMENT c) t i with
            | Ok k => Ok (VInt k :: r')
            | Raise e => Raise e
            end
        | VInt _ => Ok r
        | _ => Raise (IntegrityError datatype_mismatch)
        end
      else
        match assign_row_key t cols' (S i) r' with
        | Ok r'' => Ok (v :: r'')
        | Raise e => Raise e
        end
  | _, _ => Ok r
  end.

(** NOT NULL columns, in declaration order. *)
Fixpoint check_not_null (tbl : string) (cols : list column_def)
    (r : list value) : result unit :=
  match cols, r with
  | c :: cols', v :: r' =>
      if has_constraint NOT_NULL c && bool_decide (v = NULL)
      then Raise (IntegrityError (NOT_NULL_failed tbl (cd_name c)))
      else check_not_null tbl cols' r'
  | _, _ => Ok tt
  end.

(** The columns of a declaration with their positions. *)
Fixpoint indexed_from (i : nat) (cols : list column_def) : list (nat * column_def) :=
  match cols with
  | [] => []
  | c :: cols' => (i, c) :: indexed_from (S i) cols'
  end.

(** The order in which the engine looks at uniqueness: the row key first,
    then the indexes behind the other PRIMARY KEY and UNIQUE columns, the
    one declared last first. *)
Definition unique_order (cols : list column_def) : list (nat * column_def) :=
  List.filter (λ ic, is_row_key ic.2) (indexed_from 0 cols)
  ++ reverse (List.filter (λ ic, negb (is_row_key ic.2)) (indexed_from 0 cols)).

(** A PRIMARY KEY or UNIQUE column whose value is already stored.  NULLs
    never collide. *)
Definition collides (rows : list (list value)) (r : list value)
    (ic : nat * column_def) : bool :=
  (has_constraint PRIMARY_KEY ic.2 || has_constraint UNIQUE ic.2)
  && negb (bool_decide (cell r ic.1 = NULL))
  && bool_decide (cell r ic.1 ∈ column_values rows ic.1).

Definition check_unique (tbl : string) (rows : list (list value))
    (cols : list column_def) (r : list value) : result unit :=
  match List.find (collides rows r) (unique_order cols) with
  | Some ic => Raise (IntegrityError (UNIQUE_failed tbl (cd_name ic.2)))
  | None => Ok tt
  end.

(** A column a foreign key may reference: PRIMARY KEY or UNIQUE. *)
Definition is_key_column (cols : list column_def) (j : nat) : bool :=
  match cols !! j with
  | Some c => has_constraint PRIMARY_KEY c || has_constraint UNIQUE c
  | None => false
  end.

(** Foreign keys, looked at only on a connection that switched them on.
    Every foreign key of the table must first resolve: the child column,
    the parent table, and in it the referenced column, which has to be a
    PRIMARY KEY or UNIQUE column.  Then each child key is looked up; a NULL
    child key references nothing and is accepted. *)
Fixpoint resolve_foreign_keys (s : store) (tbl : string) (cols : list column_def)
    (fks : list table_constraint) : result (list (nat * table * nat)) :=
  match fks with
  | [] => Ok []
  | FOREIGN_KEY col ptbl pcol :: fks' =>
      match column_index col cols with
      | None => Raise (OperationalError (foreign_key_mismatch tbl ptbl))
      | Some i =>
          match find_object s ptbl with
          | Some (OTable p) =>
              match column_index pcol (t_columns p) with
              | None => Raise (OperationalError (foreign_key_mismatch tbl ptbl))
              | Some j =>
                  if negb (is_key_column (t_columns p) j)
                  then Raise (OperationalError (foreign_key_mismatch tbl ptbl))
                  else
                    match resolve_foreign_keys s tbl cols fks' with
                    | Ok l => Ok ((i, p, j) :: l)
                    | Raise e => Raise e
                    end
              end
          | _ => Raise (OperationalError (no_such_table ptbl))
          end
      end
  end.

Fixpoint check_references (r : list value) (l : list (nat * table * nat))
    : result unit :=
  match l with
  | [] => Ok tt
  | (i, p, j) :: l' =>
      if bool_decide (cell r i = NULL)
         || bool_decide (cell r i ∈ column_values (t_rows p) j)
      then check_references r l'
      else Raise (IntegrityError FOREIGN_KEY_failed)
  end.

Definition check_foreign_keys (s : store) (tbl : string) (cols : list column_def)
    (fks : list table_constraint) (r : list value) : result unit :=
  match resolve_foreign_keys s tbl cols fks with
  | Ok l => check_references r l
  | Raise e => Raise e
  end.

(** The key the row finally carries, for the AUTOINCREMENT counter. *)
Fixpoint row_key (cols : list column_def) (r : list value) : Z :=
  match cols, r with
  | c :: cols', v :: r' => if is_row_key c then int_of v else row_key cols' r'
  | _, _ => 0%Z
  end.

Definition store_row (t : table) (r : list value) : table :=
  {| t_columns := t_columns t; t_constraints := t_constraints t;
     t_rows := t_rows t ++ [r];
     t_seq := Z.max (t_seq t) (row_key (t_columns t) r) |}.

(** INSERT INTO tbl VALUES (r): one value per column, NULL where the Python
    statement leaves a column out.  The row is looked at in this order: row
    key, NOT NULL, uniqueness, foreign keys; a row that passes is written,
    which fails when the write lock is held by somebody else.  The order
    decides only which of several faults is reported (the engine asks for
    the lock and resolves the foreign keys before it looks at the row): a
    row with a fault, and any row under a held lock, is not stored. *)
Definition exec_insert (fk_on busy : bool) (tbl : string) (r : list value)
    (s : store) : result store :=
  match find_object s tbl with
  | Some (OTable t) =>
      if negb (bool_decide (length r = length (t_columns t)))
      then Raise (OperationalError
                    (wrong_value_count tbl (length (t_columns t)) (length r)))
      else
        match assign_row_key t (t_columns t) 0 r with
        | Raise e => Raise e
        | Ok r1 =>
            match check_not_null tbl (t_columns t) r1 with
            | Raise e => Raise e
            | Ok _ =>
                match check_unique tbl (t_rows t) (t_columns t) r1 with
                | Raise e => Raise e
                | Ok _ =>
                    match (if fk_on
                           then check_foreign_keys s tbl (t_columns t)
                                  (t_constraints t) r1
                           else Ok tt) with
                    | Raise e => Raise e
                    | Ok _ =>
                        if busy then Raise (OperationalError database_is_locked)
                        else Ok (<[key_of s tbl := OTable (store_row t r1)]> s)
                    end
                end
            end
        end
  | Some OView => Raise (OperationalError (cannot_modify_view tbl))
  | _ => Raise (OperationalError (no_such_table tbl))
  end.

(** Position of the row-key column of a declaration, if it has one. *)
Definition row_key_index (cols : list column_def) : option nat :=
  fst <$> head (List.filter (λ ic, is_row_key ic.2) (indexed_from 0 cols)).

(** Rows compared by the key they hold at a position. *)
Definition key_le (i : nat) (r1 r2 : list value) : Prop :=
  (int_of (cell r1 i) ≤ int_of (cell r2 i))%Z.

#[global] Instance key_le_dec i r1 r2 : Decision (key_le i r1 r2).
Proof. unfold key_le. apply _. Defined.

(** The order in which SELECT without ORDER BY yields the rows: by row key
    where the table has one, in insertion order otherwise. *)
Definition select_order (t : table) : list (list value) :=
  match row_key_index (t_columns t) with
  | Some i => merge_sort (key_le i) (t_rows t)
  | None => t_rows t
  end.

(** SELECT * FROM tbl: the column names and the rows. *)
Definition exec_select_all (tbl : string) (s : store)
    : result (list string * list (list value)) :=
  match find_object s tbl with
  | Some (OTable t) => Ok (cd_name <$> t_columns t, select_order t)
  | _ => Raise (OperationalError (no_such_table tbl))
  end.

(** ** The world: store, connection objects, diagnostic output *)

(** conn.row_factory: None (rows come back as plain tuples) or sqlite3.Row. *)
Inductive row_factory_t := rf_None | rf_Row.

(** What a sqlite3.Connection object carries. *)
Record connection := Connection {
  row_factory : row_factory_t;
  foreign_keys : bool;
  closed : bool
}.

(** Connection objects live in a heap keyed by object identity; [next_conn]
    is the identity the next object gets.  [stdout] collects what print
    wrote, oldest line first.  [busy] says that another process holds the
    write lock of the store file; nothing this process does releases it. *)
Record world := World {
  db : store;
  conns : gmap nat connection;
  next_conn : nat;
  stdout : list string;
  busy : bool
}.

Definition set_db (s : store) (w : world) : world :=
  {| db := s; conns := conns w; next_conn := next_conn w; stdout := stdout w;
     busy := busy w |}.

Definition set_conn (h : nat) (c : connection) (w : world) : world :=
  {| db := db w; conns := <[h := c]> (conns w); next_conn := next_conn w;
     stdout := stdout w; busy := busy w |}.

(** A fetched row: a tuple, or a sqlite3.Row carrying the column names. *)
Inductive pyrow :=
| PyTuple (vals : list value)
| PyRow (names : list string) (vals : list value).

(** ** A state-and-exception monad for the Python code *)

Definition M (A : Type) : Type := world → result A * world.

Definition ret {A} (a : A) : M A := λ w, (Ok a, w).

Definition raise {A} (e : exn) : M A := λ w, (Raise e, w).

(** An exception leaves the statement sequence at once; the world stays as
    it was when the exception was raised. *)
Definition bind {A B} (m : M A) (k : A → M B) : M B :=
  λ w, match m w with
       | (Ok a, w') => k a w'
       | (Raise e, w') => (Raise e, w')
       end.

Declare Scope py_scope.
Delimit Scope py_scope with py.
Notation "x <- m ;; k" := (bind m (λ x, k))
  (at level 100, m at next level, right associativity) : py_scope.
Notation "m ;; k" := (bind m (λ _, k))
  (at level 100, right associativity) : py_scope.
Local Open Scope py_scope.

(** ** sqlite3: connections, cursors, statements *)

Inductive statement :=
| CREATE_TABLE (c : create_table)
| PRAGMA_foreign_keys (on : bool)
| INSERT_INTO (tbl : string) (row : list value)
| SELECT_ALL (tbl : string).

(** sqlite3.connect(DB_PATH): a new connection object with the module's
    defaults (tuple rows, foreign keys off). *)
Definition sqlite3_connect : M nat :=
  λ w, (Ok (next_conn w),
        {| db := db w;
           conns := <[next_conn w :=
                       {| row_factory := rf_None; foreign_keys := false;
                          closed := false |}]> (conns w);
           next_conn := S (next_conn w);
           stdout := stdout w;
           busy := busy w |}).

(** Any use of a closed connection raises ProgrammingError. *)
Definition the_open (h : nat) : M connection :=
  λ w, match conns w !! h with
       | Some c => if closed c then (Raise ProgrammingError_closed, w)
                   else (Ok c, w)
       | None => (Raise ProgrammingError_closed, w)
       end.

(** conn.row_factory = f *)
Definition set_row_factory (h : nat) (f : row_factory_t) : M unit :=
  λ w, match conns w !! h with
       | Some c =>
           (Ok tt, set_conn h {| row_factory := f;
                                 foreign_keys := foreign_keys c;
                                 closed := closed c |} w)
       | None => (Raise ProgrammingError_closed, w)
       end.

Definition make_row (f : row_factory_t) (names : list string)
    (vals : list value) : pyrow :=
  match f with
  | rf_None => PyTuple vals
  | rf_Row => PyRow names vals
  end.

(** conn.execute(stmt), with the rows it yields. *)
Definition conn_execute (h : nat) (stmt : statement) : M (list pyrow) :=
  c <- the_open h ;;
  match stmt with
  | PRAGMA_foreign_keys on =>
      λ w, (Ok [], set_conn h {| row_factory := row_factory c;
                                 foreign_keys := on;
                                 closed := closed c |} w)
  | CREATE_TABLE ct =>
      λ w, match exec_create (busy w) ct (db w) with
           | Ok s => (Ok [], set_db s w)
           | Raise e => (Raise e, w)
           end
  | INSERT_INTO tbl r =>
      λ w, match exec_insert (foreign_keys c) (busy w) tbl r (db w) with
           | Ok s => (Ok [], set_db s w)
           | Raise e => (Raise e, w)
           end
  | SELECT_ALL tbl =>
      λ w, match exec_select_all tbl (db w) with
           | Ok (names, rows) => (Ok (make_row (row_factory c) names <$> rows), w)
           | Raise e => (Raise e, w)
           end
  end.

(** A cursor belongs to one connection. *)
Record cursor := Cursor { cursor_conn : nat }.

Definition conn_cursor (h : nat) : M cursor :=
  _ <- the_open h ;; ret (Cursor h).

Definition cursor_execute (cur : cursor) (stmt : statement) : M (list pyrow) :=
  conn_execute (cursor_conn cur) stmt.

Definition cursor_close (cur : cursor) : M unit := ret tt.

(** conn.commit().  The model keeps no transactions: a statement that goes
    through takes effect at once, and commit finds nothing pending.  For
    run_migrations this is what happens: sqlite3 runs DDL outside a
    transaction, so after the CREATE TABLE statements nothing is pending. *)
Definition conn_commit (h : nat) : M unit :=
  _ <- the_open h ;; ret tt.

(** conn.close(); closing twice is allowed.  In sqlite3 a connection that
    is closed drops the rows it inserted and did not commit; the model,
    keeping no transactions, does not represent this, and no statement
    below depends on what a store holds after such a close. *)
Definition conn_close (h : nat) : M unit :=
  λ w, match conns w !! h with
       | Some c =>
           (Ok tt, set_conn h {| row_factory := row_factory c;
                                 foreign_keys := foreign_keys c;
                                 closed := true |} w)
       | None => (Ok tt, w)
       end.

Definition print (line : string) : M unit :=
  λ w, (Ok tt, {| db := db w; conns := conns w; next_conn := next_conn w;
                  stdout := stdout w ++ [line]; busy := busy w |}).


Fixpoint name_index (name : string) (names : list string) : option nat :=
  match names with
  | [] => None
  | n :: names' =>
      if decide (canon n = canon name) then Some 0
      else S <$> name_index name names'
  end.

Definition row_getitem_str (r : pyrow) (name : string) : result value :=
  match r with
  | PyTuple _ => Raise TypeError
  | PyRow names vals =>
      match name_index name names with
      | Some i => match vals !! i with Some v => Ok v | None => Raise IndexError end
      | None => Raise IndexError
      end
  end.

(** ** connection.py *)

Module connection_py.

(** get_db_connection():
      conn = sqlite3.connect(DB_PATH)
      conn.row_factory = sqlite3.Row
      conn.execute("PRAGMA foreign_keys = ON")
      return conn *)
Definition get_db_connection : M nat :=
  conn <- sqlite3_connect ;;
  set_row_factory conn rf_Row ;;
  conn_execute conn (PRAGMA_foreign_keys true) ;;
  ret conn.

(** get_db_pool(): return get_db_connection() *)
Definition get_db_pool : M nat := get_db_connection.

End connection_py.
Export connection_py.

(** ** migrations.py *)

Module migrations_py.

Definition create_student : create_table :=
  CreateTable true "student"
    [ Column "student_id" TEXT [PRIMARY_KEY];
      Column "first_name" TEXT [];
      Column "lastname" TEXT [];
      Column "email" TEXT [UNIQUE];
      Column "password" TEXT [];
      Column "year" INTEGER [] ]
    [].

Definition create_attendance : create_table :=
  CreateTable true "attendance"
    [ Column "attendance_id" INTEGER [PRIMARY_KEY; AUTOINCREMENT];
      Column "student_id" TEXT [];
      Column "session_date" DATE [];
      Column "session_id" TEXT [];
      Column "status" TEXT [] ]
    [ FOREIGN_KEY "student_id" "student" "student_id" ].

Definition create_assessment : create_table :=
  CreateTable true "assessment"
    [ Column "assessment_id" INTEGER [PRIMARY_KEY; AUTOINCREMENT];
      Column "module_code" TEXT [];
      Column "title" TEXT [];
      Column "due_date" DATE [];
      Column "weight" REAL [] ]
    [].

Definition create_submission : create_table :=
  CreateTable true "submission"
    [ Column "submission_id" INTEGER [PRIMARY_KEY; AUTOINCREMENT];
      Column "student_id" TEXT [];
      Column "assessment_id" INTEGER [];
      Column "submitted_at" DATETIME [];
      Column "status" TEXT [];
      Column "mark" REAL [] ]
    [ FOREIGN_KEY "student_id" "student" "student_id";
      FOREIGN_KEY "assessment_id" "assessment" "assessment_id" ].

Definition create_wellbeing_record : create_table :=
  CreateTable true "wellbeing_record"
    [ Column "record_id" INTEGER [PRIMARY_KEY; AUTOINCREMENT];
      Column "student_id" TEXT [];
      Column "week_start" DATE [];
      Column "stress_level" INTEGER [];
      Column "sleep_hours" REAL [];
      Column "source_type" TEXT [] ]
    [ FOREIGN_KEY "student_id" "student" "student_id" ].

Definition create_alert : create_table :=
  CreateTable true "alert"
    [ Column "alert_id" INTEGER [PRIMARY_KEY; AUTOINCREMENT];
      Column "student_id" TEXT [];
      Column "alert_type" TEXT [];
      Column "reason" TEXT [];
      Column "created_at" DATETIME [];
      Column "resolved" INTEGER [] ]
    [ FOREIGN_KEY "student_id" "student" "student_id" ].

Definition create_retention_rule : create_table :=
  CreateTable true "retention_rule"
    [ Column "rule_id" INTEGER [PRIMARY_KEY; AUTOINCREMENT];
      Column "data_type" TEXT [];
      Column "retention_months" INTEGER [];
      Column "is_active" INTEGER [] ]
    [].

Definition create_audit_log : create_table :=
  CreateTable true "audit_log"
    [ Column "log_id" INTEGER [PRIMARY_KEY; AUTOINCREMENT];
      Column "user_id" TEXT [];
      Column "entity_type" TEXT [];
      Column "entity_id" INTEGER [];
      Column "action_type" TEXT [];
      Column "timestamp" DATETIME [];
      Column "details" TEXT [] ]
    [].

Definition create_user : create_table :=
  CreateTable true "user"
    [ Column "user_id" TEXT [PRIMARY_KEY];
      Column "first_name" TEXT [NOT_NULL];
      Column "lastname" TEXT [NOT_NULL];
      Column "password_hash" TEXT [NOT_NULL];
      Column "role" TEXT [NOT_NULL] ]
    [].

(** run_migrations().  The two values the prints format (the configured
    path, the clock) are outside the model and appear as placeholders. *)
Definition run_migrations : M unit :=
  conn <- get_db_connection ;;
  cursor <- conn_cursor conn ;;
  print "DB file path: <DB_NAME>" ;;
  print "DB file exists: <os.path.exists(DB_NAME)>" ;;
  cursor_execute cursor (CREATE_TABLE create_student) ;;
  cursor_execute cursor (CREATE_TABLE create_attendance) ;;
  cursor_execute cursor (CREATE_TABLE create_assessment) ;;
  cursor_execute cursor (CREATE_TABLE create_submission) ;;
  cursor_execute cursor (CREATE_TABLE create_wellbeing_record) ;;
  cursor_execute cursor (CREATE_TABLE create_alert) ;;
  cursor_execute cursor (CREATE_TABLE create_retention_rule) ;;
  cursor_execute cursor (CREATE_TABLE create_audit_log) ;;
  cursor_execute cursor (CREATE_TABLE create_user) ;;
  conn_commit conn ;;
  print "[<utcnow>] Migrations completed successfully on <DB_NAME>" ;;
  cursor_close cursor ;;
  conn_close conn.

(** The statements in the order run_migrations issues them. *)
Definition migration_script : list create_table :=
  [ create_student; create_attendance; create_assessment; create_submission;
    create_wellbeing_record; create_alert; create_retention_rule;
    create_audit_log; create_user ].

End migrations_py.
Export migrations_py.

(** ** models *)

(** The annotation types the dataclasses use. *)
Inductive pytype :=
| py_int | py_str | py_bool | py_float | py_date | py_datetime
| py_AttendanceStatus.

#[global] Instance pytype_eq_dec : EqDecision pytype.
Proof. solve_decision. Defined.

(** datetime.date and datetime.datetime values, by their components. *)
Record date := Date { d_year : Z; d_month : Z; d_day : Z }.
Record datetime := Datetime {
  dt_date : date; dt_hour : Z; dt_minute : Z; dt_second : Z
}.

(** Each module below is one file of core/models; [fields] is the dataclass
    declaration as data (field name and annotation, in declaration order). *)

Module AttendanceStatus.

(** class AttendanceStatus(str, Enum) *)
Inductive AttendanceStatus := PRESENT | ABSENT | EXCUSED.

Definition str_value (s : AttendanceStatus) : string :=
  match s with
  | PRESENT => "Present"
  | ABSENT => "Absent"
  | EXCUSED => "Excused"
  end.

End AttendanceStatus.

Module Student.

Record Student := {
  student_id : string;
  first_name : string;
  lastname : string;
  email : string;
  password : string;
  year : string
}.

Definition full_name (self : Student) : string :=
  first_name self +:+ " " +:+ lastname self.

Definition fields : list (string * pytype) :=
  [ ("student_id", py_str); ("first_name", py_str); ("lastname", py_str);
    ("email", py_str); ("password", py_str); ("year", py_str) ].

End Student.

Module AttendanceRecord.

Record AttendanceRecord := {
  attendance_id : Z;
  student_id : string;
  session_date : date;
  session_id : string;
  status : AttendanceStatus.AttendanceStatus
}.

Definition fields : list (string * pytype) :=
  [ ("attendance_id", py_int); ("student_id", py_str);
    ("session_date", py_date); ("session_id", py_str);
    ("status", py_AttendanceStatus) ].

End AttendanceRecord.

Module Alert.

Record Alert := {
  alert_id : Z;
  student_id : string;
  alert_type : string;
  reason : string;
  created_at : datetime;
  resolved : bool
}.

(** The constructor the dataclass decorator generates: [resolved] may be
    left out and then takes the declared default, False. *)
Definition __init__ (alert_id : Z) (student_id alert_type reason : string)
    (created_at : datetime) (resolved : option bool) : Alert :=
  {| alert_id := alert_id; student_id := student_id; alert_type := alert_type;
     reason := reason; created_at := created_at;
     resolved := default false resolved |}.

Definition fields : list (string * pytype) :=
  [ ("alert_id", py_int); ("student_id", py_str); ("alert_type", py_str);
    ("reason", py_str); ("created_at", py_datetime); ("resolved", py_bool) ].

End Alert.

Module AuditLog.

Record AuditLog := {
  log_id : Z;
  user_id : Z;
  entitiy_type : string;
  entity_id : Z;
  action_type : string;
  timestamp : datetime;
  details : string
}.

(** The generated constructor: [details] defaults to the empty string. *)
Definition __init__ (log_id user_id : Z) (entitiy_type : string)
    (entity_id : Z) (action_type : string) (timestamp : datetime)
    (details : option string) : AuditLog :=
  {| log_id := log_id; user_id := user_id; entitiy_type := entitiy_type;
     entity_id := entity_id; action_type := action_type;
     timestamp := timestamp; details := default EmptyString details |}.

Definition fields : list (string * pytype) :=
  [ ("log_id", py_int); ("user_id", py_int); ("entitiy_type", py_str);
    ("entity_id", py_int); ("action_type", py_str);
    ("timestamp", py_datetime); ("details", py_str) ].

End AuditLog.

(** ** Vocabulary for the statements below *)

(** The CREATE TABLE statements of a script run one after the other; the
    first failure stops the run. *)
Fixpoint run_script (busy : bool) (l : list create_table) (s : store)
    : result unit * store :=
  match l with
  | [] => (Ok tt, s)
  | c :: l' =>
      match exec_create busy c s with
      | Ok s' => run_script busy l' s'
      | Raise e => (Raise e, s)
      end
  end.

(** Every object of the store is listed under the [canon] form of its
    name, as the engine's catalogue has it. *)
Definition canonical (s : store) : Prop :=
  map_Forall (λ n _, canon n = n) s.

(** The names of a script are written in their [canon] form. *)
Definition canonical_names (l : list create_table) : Prop :=
  Forall (λ c, canon (ct_name c) = ct_name c) l.

(** The store holds the nine tables with the declarations run_migrations
    gives them (whatever rows they have). *)
Definition declared_as (c : create_table) (s : store) : bool :=
  match find_object s (ct_name c) with
  | Some (OTable t) =>
      bool_decide (t_columns t = ct_columns c)
      && bool_decide (t_constraints t = ct_constraints c)
  | _ => false
  end.

Definition has_schema (s : store) : bool :=
  forallb (λ c, declared_as c s) migration_script.

(** The value a row of a given declaration holds in a named column. *)
Definition row_field (c : create_table) (name : string) (r : list value) : value :=
  match column_index name (ct_columns c) with
  | Some i => cell r i
  | None => NULL
  end.

(** The values a store holds in a named column of a named table. *)
Definition stored (s : store) (tbl col : string) : list value :=
  match find_object s tbl with
  | Some (OTable t) =>
      match column_index col (t_columns t) with
      | Some i => column_values (t_rows t) i
      | None => []
      end
  | _ => []
  end.

(** The four tables whose rows carry a student_id foreign key. *)
Definition student_children : list create_table :=
  [ create_attendance; create_submission; create_wellbeing_record; create_alert ].

(** What a caller of this layer can do to the world. *)
Inductive api_call :=
| call_get_db_connection
| call_get_db_pool
| call_run_migrations
| call_execute (h : nat) (stmt : statement)
| call_commit (h : nat)
| call_close (h : nat).

Definition perform (c : api_call) (w : world) : world :=
  match c with
  | call_get_db_connection => (get_db_connection w).2
  | call_get_db_pool => (get_db_pool w).2
  | call_run_migrations => (run_migrations w).2
  | call_execute h stmt => (conn_execute h stmt w).2
  | call_commit h => (conn_commit h w).2
  | call_close h => (conn_close h w).2
  end.

Definition perform_all (cs : list api_call) (w : world) : world :=
  foldl (λ w c, perform c w) w cs.

(** The connection object get_db_connection hands out. *)
Definition configured : connection :=
  {| row_factory := rf_Row; foreign_keys := true; closed := false |}.

(** ** The schema as the specification lists it *)

Module spec.

Record spec_column := SpecColumn {
  sc_name : string;
  sc_type : sqltype;
  sc_pk : bool;
  sc_autoincrement : bool;
  sc_unique : bool;
  sc_not_null : bool;
  sc_references : option string
}.

#[global] Instance spec_column_eq_dec : EqDecision spec_column.
Proof. solve_decision. Defined.

Definition plain (n : string) (ty : sqltype) : spec_column :=
  SpecColumn n ty false false false false None.
Definition pk (n : string) (ty : sqltype) : spec_column :=
  SpecColumn n ty true false false false None.
Definition pk_autoincrement (n : string) : spec_column :=
  SpecColumn n INTEGER true true false false None.
Definition unique (n : string) (ty : sqltype) : spec_column :=
  SpecColumn n ty false false true false None.
Definition not_null (n : string) (ty : sqltype) : spec_column :=
  SpecColumn n ty false false false true None.
Definition fk (n : string) (ty : sqltype) (parent : string) : spec_column :=
  SpecColumn n ty false false false false (Some parent).

(** The authoritative column lists of the specification's schema section,
    line by line. *)
Definition spec_schema : list (string * list spec_column) :=
  [ ("student",
     [ pk "student_id" TEXT; plain "first_name" TEXT; plain "lastname" TEXT;
       unique "email" TEXT; plain "password" TEXT; plain "year" INTEGER ]);
    ("attendance",
     [ pk_autoincrement "attendance_id"; fk "student_id" TEXT "student";
       plain "session_date" DATE; plain "session_id" TEXT; plain "status" TEXT ]);
    ("assessment",
     [ pk_autoincrement "assessment_id"; plain "module_code" TEXT;
       plain "title" TEXT; plain "due_date" DATE; plain "weight" REAL ]);
    ("submission",
     [ pk_autoincrement "submission_id"; fk "student_id" TEXT "student";
       fk "assessment_id" INTEGER "assessment"; plain "submitted_at" DATETIME;
       plain "status" TEXT; plain "mark" REAL ]);
    ("wellbeing_record",
     [ pk_autoincrement "record_id"; fk "student_id" TEXT "student";
       plain "week_start" DATE; plain "stress_level" INTEGER;
       plain "sleep_hours" REAL; plain "source_type" TEXT ]);
    ("alert",
     [ pk_autoincrement "alert_id"; fk "student_id" TEXT "student";
       plain "alert_type" TEXT; plain "reason" TEXT;
       plain "created_at" DATETIME; plain "resolved" INTEGER ]);
    ("retention_rule",
     [ pk_autoincrement "rule_id"; plain "data_type" TEXT;
       plain "retention_months" INTEGER; plain "is_active" INTEGER ]);
    ("audit_log",
     [ pk_autoincrement "log_id"; plain "user_id" TEXT;
       plain "entity_type" TEXT; plain "entity_id" INTEGER;
       plain "action_type" TEXT; plain "timestamp" DATETIME;
       plain "details" TEXT ]);
    ("user",
     [ pk "user_id" TEXT; not_null "first_name" TEXT; not_null "lastname" TEXT;
       not_null "password_hash" TEXT; not_null "role" TEXT ]) ].

Definition spec_names : list string := fst <$> spec_schema.

(** The columns whose integer or text storage stands for a richer native
    type: the 0/1 flags and the attendance status. *)
Definition spec_boolean_columns : list (string * string) :=
  [ ("alert", "resolved"); ("retention_rule", "is_active") ].

Definition spec_status_columns : list (string * string) :=
  [ ("attendance", "status") ].

(** The native type that mirrors a column: dates as date values, booleans as
    boolean, the attendance status as its enumeration, integer columns as
    integers, text columns as strings. *)
Definition spec_native_type (tbl col : string) (ty : sqltype) : pytype :=
  if bool_decide ((tbl, col) ∈ spec_status_columns) then py_AttendanceStatus
  else if bool_decide ((tbl, col) ∈ spec_boolean_columns) then py_bool
  else match ty with
       | TEXT => py_str
       | INTEGER => py_int
       | REAL => py_float
       | DATE => py_date
       | DATETIME => py_datetime
       end.

End spec.
Export spec.

(** How a stored table reads in the specification's terms: per column its
    name, type and constraints, and the parent table of a foreign key
    declared on it. *)
Fixpoint references (fks : list table_constraint) (col : string) : option string :=
  match fks with
  | [] => None
  | FOREIGN_KEY c p _ :: fks' =>
      if decide (c = col) then Some p else references fks' col
  end.

Definition describe (t : table) : list spec_column :=
  (λ c, {| sc_name := cd_name c; sc_type := cd_type c;
           sc_pk := has_constraint PRIMARY_KEY c;
           sc_autoincrement := has_constraint AUTOINCREMENT c;
           sc_unique := has_constraint UNIQUE c;
           sc_not_null := has_constraint NOT_NULL c;
           sc_references := references (t_constraints t) (cd_name c) |})
    <$> t_columns t.

(** A name holds an empty table that reads exactly as specified. *)
Definition as_specified (s : store) (entry : string * list spec_column) : bool :=
  match find_object s entry.1 with
  | Some (OTable t) => bool_decide (describe t = entry.2)
  | _ => false
  end.

Definition schema_as_specified (s : store) : bool :=
  forallb (as_specified s) spec_schema.

(** The record a table declaration calls for: one field per column, under
    the column's name, with the native type of the column. *)
Definition mirror_of (c : create_table) : list (string * pytype) :=
  (λ col, (cd_name col, spec_native_type (ct_name c) (cd_name col) (cd_type col)))
    <$> ct_columns c.

(** A dataclass mirrors the table a CREATE TABLE statement declares. *)
Definition mirrors (fields : list (string * pytype)) (c : create_table) : bool :=
  bool_decide (fields = mirror_of c).

(** The nine cursor.execute calls of run_migrations as a loop over the
    script, followed by the rest of the function. *)
Fixpoint execute_all (cur : cursor) (l : list create_table) (rest : M unit) : M unit :=
  match l with
  | [] => rest
  | c :: l' => cursor_execute cur (CREATE_TABLE c) ;; execute_all cur l' rest
  end.

(** The connection object once closed. *)
Definition configured_closed : connection :=
  {| row_factory := rf_Row; foreign_keys := true; closed := true |}.

Definition migration_prologue : list string :=
  [ "DB file path: <DB_NAME>"; "DB file exists: <os.path.exists(DB_NAME)>" ].

Definition migration_epilogue : list string :=
  [ "[<utcnow>] Migrations completed successfully on <DB_NAME>" ].

(** The keys a table holds in its first column. *)
Definition stored_keys (s : store) (tbl : string) : list value :=
  match find_object s tbl with
  | Some (OTable t) => column_values (t_rows t) 0
  | _ => []
  end.

(** An integer that fits in 64 bits, as every integer the engine stores
    does; sqlite3 refuses to bind any other. *)
Definition int64 (n : Z) : Prop := (- max_rowid - 1 ≤ n ≤ max_rowid)%Z.

Definition in_range (v : value) : Prop :=
  match v with
  | VInt n => int64 n
  | _ => True
  end.

(** Every integer of a row can be handed to the engine. *)
Definition ints_in_range (r : list value) : Prop := Forall in_range r.

(** A value in the form a TEXT column keeps it: a text, or NULL. *)
Definition text_or_null (v : value) : Prop :=
  match v with
  | NULL | VText _ => True
  | _ => False
  end.

(** A value in the form an INTEGER PRIMARY KEY column keeps it: an
    integer. *)
Definition is_int (v : value) : Prop :=
  match v with
  | VInt n => int64 n
  | _ => False
  end.

(** The table has [n] keys left to hand out: neither the largest stored
    key nor the AUTOINCREMENT counter is within [n] of the last key. *)
Definition keys_left (n : Z) (s : store) (tbl : string) : Prop :=
  match find_object s tbl with
  | Some (OTable t) =>
      (t_seq t + n ≤ max_rowid)%Z
      ∧ ∀ k, VInt k ∈ column_values (t_rows t) 0 → (k + n ≤ max_rowid)%Z
  | _ => False
  end.

(** A row leaves its key (first column) to the engine, which has a key
    left, or brings an integer key that no stored row of the table has. *)
Definition key_free (s : store) (tbl : string) (r : list value) : Prop :=
  (cell r 0 = NULL ∧ keys_left 1 s tbl)
  ∨ ∃ n, cell r 0 = VInt n ∧ VInt n ∉ stored_keys s tbl.



(** The rows a call yielded (none when it raised). *)
Definition fetched (r : result (list pyrow)) : list pyrow :=
  match r with
  | Ok rows => rows
  | Raise _ => []
  end.

(** ** Sample worlds *)

(** Nothing on disk, no connection made yet. *)
Definition empty_world : world :=
  {| db := ∅; conns := ∅; next_conn := 0; stdout := [];
     busy := false |}.

(** A store in which somebody created an index called attendance on a table
    of their own. *)
Definition notes_table : table :=
  {| t_columns := [ Column "note_id" INTEGER [PRIMARY_KEY]; Column "body" TEXT [] ];
     t_constraints := [];
     t_rows := [ [VInt 1; VText "hello"] ];
     t_seq := 0 |}.

Definition index_clash_world : world :=
  {| db := <["attendance" := OIndex "notes"]> (<["notes" := OTable notes_table]> ∅);
     conns := ∅; next_conn := 0; stdout := [];
     busy := false |}.

(** A store left by an older version of the application: a student table
    with two columns and one row. *)
Definition legacy_student : table :=
  {| t_columns := [ Column "id" INTEGER [PRIMARY_KEY]; Column "name" TEXT [] ];
     t_constraints := [];
     t_rows := [ [VInt 7; VText "Ada"] ];
     t_seq := 0 |}.

Definition legacy_world : world :=
  {| db := <["student" := OTable legacy_student]> ∅;
     conns := ∅; next_conn := 0; stdout := [];
     busy := false |}.

(** The empty store after run_migrations, and the same with a connection
    opened on it. *)
Definition migrated_world : world := (run_migrations empty_world).2.

Definition connected_world : world := (get_db_connection migrated_world).2.

Definition connected_handle : nat := next_conn migrated_world.

(** INSERT INTO attendance(session_date, session_id, status)
    VALUES ('2025-01-01', 'S1', 'present') *)
Definition attendance_row_no_student : list value :=
  [ NULL; NULL; VText "2025-01-01"; VText "S1"; VText "present" ].

(** INSERT INTO attendance(student_id, session_date, session_id, status)
    VALUES ('INVALID', '2025-01-01', 'S1', 'present') *)
Definition attendance_row_invalid : list value :=
  [ NULL; VText "INVALID"; VText "2025-01-01"; VText "S1"; VText "present" ].

Definition student_john : list value :=
  [ VText "S001"; VText "John"; VText "Doe"; VText "john@example.com";
    VText "pass123"; VInt 1 ].


(** The connected world once John is enrolled. *)
Definition john_world : world :=
  (conn_execute connected_handle (INSERT_INTO "student" student_john)
     connected_world).2.

(** ** Vocabulary for the further properties *)

(** The first statement of a script whose name an index holds in the
    store, and the statements in front of it (all of them when there is no
    such statement). *)
Fixpoint first_clash (l : list create_table) (s : store) : option create_table :=
  match l with
  | [] => None
  | c :: l' =>
      match find_object s (ct_name c) with
      | Some (OIndex _) => Some c
      | _ => first_clash l' s
      end
  end.

Fixpoint before_clash (l : list create_table) (s : store) : list create_table :=
  match l with
  | [] => []
  | c :: l' =>
      match find_object s (ct_name c) with
      | Some (OIndex _) => []
      | _ => c :: before_clash l' s
      end
  end.

(** The empty tables a list of statements declares, by name. *)
Definition tables_of (l : list create_table) : store :=
  list_to_map ((λ c, (ct_name c, OTable (new_table c))) <$> l).

(** The seven tables whose key is an AUTOINCREMENT integer. *)
Definition keyed_tables : list create_table :=
  [ create_attendance; create_assessment; create_submission;
    create_wellbeing_record; create_alert; create_retention_rule;
    create_audit_log ].

(** Every foreign key of a row is NULL or names a stored parent. *)
Definition refs_ok (s : store) (c : create_table) (r : list value) : Prop :=
  ∀ col p pcol, FOREIGN_KEY col p pcol ∈ ct_constraints c →
    row_field c col r = NULL ∨ row_field c col r ∈ stored s p pcol.

(** A value is NULL or is not among the values a column already holds. *)
Definition unused (v : value) (held : list value) : Prop :=
  v = NULL ∨ v ∉ held.

(** The column names of a declaration, as a fetched row carries them. *)
Definition column_names (c : create_table) : list string :=
  cd_name <$> ct_columns c.

(** INSERT INTO attendance(student_id, session_date, session_id, status)
    VALUES ('S001', '2025-01-01', 'sess1', 'present') *)
Definition attendance_row_john : list value :=
  [ NULL; VText "S001"; VText "2025-01-01"; VText "sess1"; VText "present" ].



(** A second student under John's student_id. *)
Definition student_john_again : list value :=
  [ VText "S001"; VText "Johnny"; VText "Doe"; VText "johnny@example.com";
    VText "pass789"; VInt 2 ].

(** INSERT INTO submission(student_id, assessment_id, submitted_at, status)
    VALUES ('S001', 999, '2025-02-10', 'submitted') *)
Definition submission_row_no_assessment : list value :=
  [ NULL; VText "S001"; VInt 999; VText "2025-02-10"; VText "submitted"; NULL ].

(** Every stored row has one value per column of its table. *)
Definition rows_fit (s : store) : Prop :=
  ∀ tbl t r, s !! tbl = Some (OTable t) → r ∈ t_rows t →
    length r = length (t_columns t).

(** AttendanceStatus(value): the member with that value, looked up among
    the members in declaration order; None stands for the ValueError an
    unknown value raises. *)
Definition AttendanceStatus_members : list AttendanceStatus.AttendanceStatus :=
  [ AttendanceStatus.PRESENT; AttendanceStatus.ABSENT; AttendanceStatus.EXCUSED ].

Definition AttendanceStatus_of_value (v : string)
    : option AttendanceStatus.AttendanceStatus :=
  head (filter (λ m, AttendanceStatus.str_value m = v) AttendanceStatus_members).

(** A string without a space character. *)
Fixpoint no_space (s : string) : bool :=
  match s with
  | EmptyString => true
  | String c s' => negb (bool_decide (c = " "%char)) && no_space s'
  end.

Definition student_ada : Student.Student :=
  {| Student.student_id := "S010"; Student.first_name := "Ada";
     Student.lastname := "King Lovelace"; Student.email := "ada@example.com";
     Student.password := "x"; Student.year := "1" |}.

(** * Properties *)

(** ** The monad *)

Lemma bind_ok {A B} (m : M A) (k : A → M B) w a w' :
  m w = (Ok a, w') → bind m k w = k a w'.
Proof. intros H. unfold bind. by rewrite H. Qed.

Lemma bind_raise {A B} (m : M A) (k : A → M B) w e w' :
  m w = (Raise e, w') → bind m k w = (Raise e, w').
Proof. intros H. unfold bind. by rewrite H. Qed.

(** ** Names *)

Lemma canon_lower_idemp c : lower (lower c) = lower c.
Proof. destruct c as [[] [] [] [] [] [] [] []]; reflexivity. Qed.

Lemma canon_idemp n : canon (canon n) = canon n.
Proof.
  induction n as [|c n IH]; simpl; [done|]. by rewrite canon_lower_idemp, IH.
Qed.

Lemma key_of_canon s name : canon name = name → key_of s name = name.
Proof. intros H. unfold key_of. by case_decide. Qed.

Lemma find_object_canon s name : canon name = name → find_object s name = s !! name.
Proof. intros H. unfold find_object. by rewrite key_of_canon. Qed.

Lemma key_of_hit s name o : s !! name = Some o → key_of s name = name.
Proof. intros H. unfold key_of. rewrite decide_True; [done|by exists o]. Qed.

Lemma find_object_hit s name o : s !! name = Some o → find_object s name = Some o.
Proof. intros H. unfold find_object. by rewrite (key_of_hit _ _ _ H). Qed.

Lemma find_object_None s name :
  find_object s name = None →
  s !! name = None ∧ s !! canon name = None ∧ key_of s name = canon name.
Proof.
  unfold find_object, key_of. case_decide as H.
  - intros E. destruct H as [o Ho]. congruence.
  - intros E. split; [|done]. by apply eq_None_not_Some.
Qed.

(** In a catalogue of canonical keys a name stands for its canonical
    form. *)
Lemma key_of_canonical s name : canonical s → key_of s name = canon name.
Proof.
  intros Hs. unfold key_of. case_decide as H; [|done].
  destruct H as [o Ho]. symmetry. by apply (Hs name o).
Qed.

(** A name keeps standing for the same object when a new object is listed
    under a canonical key. *)
Lemma find_object_insert_new s k o' name o :
  s !! k = None → canon k = k →
  find_object s name = Some o → find_object (<[k:=o']> s) name = Some o.
Proof.
  intros Hk Hcan. unfold find_object, key_of.
  destruct (decide (is_Some (s !! name))) as [[o1 H1]|Hno].
  - intros Ho. assert (name ≠ k) by congruence.
    rewrite decide_True by (rewrite lookup_insert_ne by done; by exists o1).
    by rewrite lookup_insert_ne.
  - intros Ho. assert (canon name ≠ k) by congruence.
    assert (name ≠ k) by (intros ->; congruence).
    rewrite decide_False by by rewrite lookup_insert_ne.
    by rewrite lookup_insert_ne.
Qed.

(** ** CREATE TABLE and scripts of them *)

Lemma exec_create_frame b c s s' n o :
  exec_create b c s = Ok s' → s !! n = Some o → s' !! n = Some o.
Proof.
  unfold exec_create. intros H Hn.
  destruct (find_object s (ct_name c)) as [[t| |ix]|] eqn:E.
  - destruct (ct_if_not_exists c); by simplify_eq.
  - destruct (ct_if_not_exists c); by simplify_eq.
  - done.
  - destruct b; simplify_eq. apply find_object_None in E as (_ & E & _).
    rewrite lookup_insert_ne; [done|]. intros <-. congruence.
Qed.

Lemma exec_create_find b c s s' name o :
  exec_create b c s = Ok s' →
  find_object s name = Some o → find_object s' name = Some o.
Proof.
  unfold exec_create. intros H Hn.
  destruct (find_object s (ct_name c)) as [[t| |ix]|] eqn:E.
  - destruct (ct_if_not_exists c); by simplify_eq.
  - destruct (ct_if_not_exists c); by simplify_eq.
  - done.
  - destruct b; simplify_eq. apply find_object_None in E as (_ & E & _).
    apply find_object_insert_new; [done|apply canon_idemp|done].
Qed.

Lemma exec_create_present b c s s' :
  exec_create b c s = Ok s' →
  ∃ o, find_object s' (ct_name c) = Some o ∧ ∀ ix, o ≠ OIndex ix.
Proof.
  unfold exec_create. intros H.
  destruct (find_object s (ct_name c)) as [[t| |ix]|] eqn:E.
  - destruct (ct_if_not_exists c); simplify_eq. eauto.
  - destruct (ct_if_not_exists c); simplify_eq. eauto.
  - done.
  - destruct b; simplify_eq. apply find_object_None in E as (E1 & E2 & _).
    exists (OTable (new_table c)). split; [|done].
    unfold find_object, key_of.
    destruct (decide (canon (ct_name c) = ct_name c)) as [->|Hne].
    + rewrite lookup_insert_eq. rewrite decide_True by by eexists.
      by rewrite lookup_insert_eq.
    + rewrite (lookup_insert_ne _ (canon (ct_name c)) (ct_name c)) by done.
      rewrite E1. rewrite decide_False by by intros [? ?].
      by rewrite lookup_insert_eq.
Qed.

Lemma exec_create_again b c s o :
  ct_if_not_exists c = true → find_object s (ct_name c) = Some o →
  (∀ ix, o ≠ OIndex ix) →
  exec_create b c s = Ok s.
Proof.
  unfold exec_create. intros Hc -> Ho. rewrite Hc.
  destruct o as [t| |ix]; [done|done|]. by destruct (Ho ix).
Qed.

Lemma run_script_frame b l : ∀ s n o,
  s !! n = Some o → (run_script b l s).2 !! n = Some o.
Proof.
  induction l as [|c l IH]; intros s n o Hn; simpl; [done|].
  destruct (exec_create b c s) as [s'|e] eqn:E; [|done].
  apply IH. eauto using exec_create_frame.
Qed.

Lemma run_script_find b l : ∀ s name o,
  find_object s name = Some o →
  find_object (run_script b l s).2 name = Some o.
Proof.
  induction l as [|c l IH]; intros s n o Hn; simpl; [done|].
  destruct (exec_create b c s) as [s'|e] eqn:E; [|done].
  apply IH. eauto using exec_create_find.
Qed.

(** Re-running a script of IF NOT EXISTS statements on the store a first
    run left changes nothing and ends the same way. *)
Lemma run_script_idempotent b l :
  Forall (λ c, ct_if_not_exists c = true) l →
  ∀ s, run_script b l (run_script b l s).2 = run_script b l s.
Proof.
  induction 1 as [|c l Hc Hl IH]; intros s; simpl; [done|].
  destruct (exec_create b c s) as [s1|e] eqn:E; simpl.
  - destruct (exec_create_present _ _ _ _ E) as (o & Ho & Hix).
    rewrite (exec_create_again b c _ o); auto.
    by apply run_script_find.
  - by rewrite E.
Qed.

Lemma migration_script_if_not_exists :
  Forall (λ c, ct_if_not_exists c = true) migration_script.
Proof. repeat constructor. Qed.

Lemma migration_script_canonical : canonical_names migration_script.
Proof. repeat constructor. Qed.

(** The engine keeps the catalogue under canonical names. *)
Lemma exec_create_canonical b c s s' :
  exec_create b c s = Ok s' → canonical s → canonical s'.
Proof.
  unfold exec_create. intros H Hs.
  destruct (find_object s (ct_name c)) as [[t| |ix]|] eqn:E.
  - destruct (ct_if_not_exists c); by simplify_eq.
  - destruct (ct_if_not_exists c); by simplify_eq.
  - done.
  - destruct b; simplify_eq.
    apply map_Forall_insert_2; [apply canon_idemp|done].
Qed.

Lemma run_script_canonical b l : ∀ s,
  canonical s → canonical (run_script b l s).2.
Proof.
  induction l as [|c l IH]; intros s Hs; simpl; [done|].
  destruct (exec_create b c s) as [s'|e] eqn:E; [|done].
  apply IH. eauto using exec_create_canonical.
Qed.

(** ** connection.py *)

Lemma get_db_connection_eq w :
  get_db_connection w =
    (Ok (next_conn w),
     {| db := db w;
        conns := <[next_conn w := configured]> (conns w);
        next_conn := S (next_conn w);
        stdout := stdout w;
        busy := busy w |}).
Proof.
  unfold get_db_connection, bind, sqlite3_connect, set_row_factory,
    conn_execute, bind, the_open, set_conn, ret. simpl.
  rewrite lookup_insert_eq. simpl. rewrite lookup_insert_eq. simpl.
  by rewrite !insert_insert_eq.
Qed.

Lemma the_open_eq h c w :
  conns w !! h = Some c → closed c = false → the_open h w = (Ok c, w).
Proof. intros H Hc. unfold the_open. by rewrite H, Hc. Qed.

Lemma conn_execute_create h c ct w :
  conns w !! h = Some c → closed c = false →
  conn_execute h (CREATE_TABLE ct) w =
    match exec_create (busy w) ct (db w) with
    | Ok s => (Ok [], set_db s w)
    | Raise e => (Raise e, w)
    end.
Proof.
  intros H Hc. unfold conn_execute.
  by rewrite (bind_ok _ _ _ _ _ (the_open_eq _ _ _ H Hc)).
Qed.

Lemma conn_execute_insert h c tbl r w :
  conns w !! h = Some c → closed c = false →
  conn_execute h (INSERT_INTO tbl r) w =
    match exec_insert (foreign_keys c) (busy w) tbl r (db w) with
    | Ok s => (Ok [], set_db s w)
    | Raise e => (Raise e, w)
    end.
Proof.
  intros H Hc. unfold conn_execute.
  by rewrite (bind_ok _ _ _ _ _ (the_open_eq _ _ _ H Hc)).
Qed.

Lemma conn_execute_select h c tbl w :
  conns w !! h = Some c → closed c = false →
  conn_execute h (SELECT_ALL tbl) w =
    match exec_select_all tbl (db w) with
    | Ok (names, rows) => (Ok (make_row (row_factory c) names <$> rows), w)
    | Raise e => (Raise e, w)
    end.
Proof.
  intros H Hc. unfold conn_execute.
  by rewrite (bind_ok _ _ _ _ _ (the_open_eq _ _ _ H Hc)).
Qed.

(** ** migrations.py *)

Lemma set_db_id w : set_db (db w) w = w.
Proof. by destruct w. Qed.

Lemma execute_all_eq h c rest l : ∀ w,
  conns w !! h = Some c → closed c = false →
  execute_all (Cursor h) l rest w =
    match run_script (busy w) l (db w) with
    | (Ok _, s) => rest (set_db s w)
    | (Raise e, s) => (Raise e, set_db s w)
    end.
Proof.
  induction l as [|ct l IH]; intros w H Hc; simpl.
  - by rewrite set_db_id.
  - unfold bind, cursor_execute. simpl.
    rewrite (conn_execute_create _ _ _ _ H Hc).
    destruct (exec_create (busy w) ct (db w)) as [s|e]; [|by rewrite set_db_id].
    by rewrite (IH (set_db s w) H Hc).
Qed.

Lemma run_migrations_loop :
  run_migrations =
    (conn <- get_db_connection ;;
     cursor <- conn_cursor conn ;;
     print "DB file path: <DB_NAME>" ;;
     print "DB file exists: <os.path.exists(DB_NAME)>" ;;
     execute_all cursor migration_script
       (conn_commit conn ;;
        print "[<utcnow>] Migrations completed successfully on <DB_NAME>" ;;
        cursor_close cursor ;;
        conn_close conn)).
Proof. reflexivity. Qed.

(** What run_migrations does to a world, in one equation: the script runs
    against the store through a fresh connection; that connection ends
    closed when every statement went through and stays open when one
    raised. *)
Lemma run_migrations_eq w :
  run_migrations w =
    match run_script (busy w) migration_script (db w) with
    | (Ok _, s) =>
        (Ok tt,
         {| db := s;
            conns := <[next_conn w := configured_closed]> (conns w);
            next_conn := S (next_conn w);
            stdout := (stdout w ++ migration_prologue) ++ migration_epilogue;
            busy := busy w |})
    | (Raise e, s) =>
        (Raise e,
         {| db := s;
            conns := <[next_conn w := configured]> (conns w);
            next_conn := S (next_conn w);
            stdout := stdout w ++ migration_prologue;
            busy := busy w |})
    end.
Proof.
  rewrite run_migrations_loop.
  rewrite (bind_ok _ _ _ _ _ (get_db_connection_eq w)).
  set (h := next_conn w).
  set (w1 := {| db := db w; conns := <[h:=configured]> (conns w);
                next_conn := S h; stdout := stdout w; busy := busy w |}).
  assert (H1 : conns w1 !! h = Some configured) by apply lookup_insert_eq.
  unfold conn_cursor.
  rewrite (bind_ok _ _ w1 (Cursor h) w1);
    [|by rewrite (bind_ok _ _ _ _ _ (the_open_eq _ _ _ H1 eq_refl))].
  unfold bind at 1. unfold print at 1. cbv beta iota.
  unfold bind at 1. unfold print at 1. cbv beta iota.
  rewrite (execute_all_eq h configured); [|apply lookup_insert_eq|done].
  subst w1. cbn [db conns next_conn stdout busy].
  destruct (run_script (busy w) migration_script (db w)) as [[[]|e] s];
    unfold set_db; cbn [db conns next_conn stdout busy app];
    [|by rewrite <- app_assoc].
  unfold bind, conn_commit, bind, the_open, print, cursor_close, conn_close,
    set_conn, ret. cbn [db conns next_conn stdout busy].
  rewrite lookup_insert_eq. cbn [closed configured db conns next_conn stdout busy].
  rewrite lookup_insert_eq. cbn [closed configured db conns next_conn stdout
    busy row_factory foreign_keys].
  rewrite insert_insert_eq. by rewrite <- !app_assoc.
Qed.

Lemma run_migrations_db w :
  db (run_migrations w).2 = (run_script (busy w) migration_script (db w)).2.
Proof.
  rewrite run_migrations_eq.
  by destruct (run_script (busy w) migration_script (db w)) as [[[]|e] s].
Qed.

Lemma run_migrations_result w :
  (run_migrations w).1 = (run_script (busy w) migration_script (db w)).1.
Proof.
  rewrite run_migrations_eq.
  by destruct (run_script (busy w) migration_script (db w)) as [[[]|e] s].
Qed.

Lemma run_migrations_busy w : busy (run_migrations w).2 = busy w.
Proof.
  rewrite run_migrations_eq.
  by destruct (run_script (busy w) migration_script (db w)) as [[[]|e] s].
Qed.

Lemma run_migrations_next_conn w :
  next_conn (run_migrations w).2 = S (next_conn w).
Proof.
  rewrite run_migrations_eq.
  by destruct (run_script (busy w) migration_script (db w)) as [[[]|e] s].
Qed.

(** The connection run_migrations opened is closed exactly when it returns
    normally. *)
Lemma run_migrations_closes_iff_ok w :
  closed <$> conns (run_migrations w).2 !! next_conn w =
    Some (match (run_migrations w).1 with Ok _ => true | Raise _ => false end).
Proof.
  rewrite run_migrations_eq.
  destruct (run_script (busy w) migration_script (db w)) as [[[]|e] s];
    cbn [fst snd conns]; by rewrite lookup_insert_eq.
Qed.

(** C1 (observed on the code, at a store that makes a statement fail):
    against a store holding an index named attendance, run_migrations
    raises the engine's error after creating the student table, and the
    connection it opened is still open when the error reaches the caller. *)
Theorem run_migrations_index_clash_leaves_connection_open :
  (run_migrations index_clash_world).1
    = Raise (OperationalError (index_already_named "attendance"))
  ∧ conns (run_migrations index_clash_world).2 !! next_conn index_clash_world
    = Some configured
  ∧ closed configured = false
  ∧ is_Some (db (run_migrations index_clash_world).2 !! "student").
Proof.
  rewrite run_migrations_eq.
  assert (run_script (busy index_clash_world) migration_script
            (db index_clash_world)
          = (Raise (OperationalError (index_already_named "attendance")),
             <["student" := OTable (new_table create_student)]>
               (db index_clash_world))) as -> by reflexivity.
  cbn [fst snd conns db]. rewrite !lookup_insert_eq. eauto.
Qed.

(** C3: running run_migrations a second time leaves the store exactly as
    the first run left it (same tables, same structure, same rows) and
    ends the same way. *)
Theorem run_migrations_idempotent (w : world) :
  db (run_migrations (run_migrations w).2).2 = db (run_migrations w).2
  ∧ (run_migrations (run_migrations w).2).1 = (run_migrations w).1.
Proof.
  rewrite !run_migrations_db, !run_migrations_result, !run_migrations_db,
    !run_migrations_busy.
  by rewrite (run_script_idempotent _ _ migration_script_if_not_exists).
Qed.

(** C9: whatever a store holds under a name before run_migrations (a table
    of any structure with its rows, or any other object) it holds unchanged
    afterwards. *)
Theorem run_migrations_preserves_existing (w : world) (n : string) (o : schema_object) :
  db w !! n = Some o → db (run_migrations w).2 !! n = Some o.
Proof. intros H. rewrite run_migrations_db. by apply run_script_frame. Qed.

Lemma run_migrations_preserves_existing_witness :
  db legacy_world !! "student" = Some (OTable legacy_student)
  ∧ db (run_migrations legacy_world).2 !! "student" = Some (OTable legacy_student).
Proof.
  split; [reflexivity|].
  apply (run_migrations_preserves_existing legacy_world). reflexivity.
Defined.

(** ** The schema run_migrations creates *)

Lemma exec_create_fresh c s :
  canon (ct_name c) = ct_name c → s !! ct_name c = None →
  exec_create false c s = Ok (<[ct_name c := OTable (new_table c)]> s).
Proof.
  unfold exec_create. intros Hc Hs.
  by rewrite (find_object_canon _ _ Hc), Hs, Hc.
Qed.

(** On a store that holds none of a script's (pairwise distinct) names, and
    whose write lock is free, the script goes through, every statement
    creates its empty table, and no other name is touched. *)
Lemma run_script_fresh l :
  canonical_names l →
  NoDup (ct_name <$> l) →
  ∀ s, (∀ c, c ∈ l → s !! ct_name c = None) →
    (run_script false l s).1 = Ok tt
    ∧ (∀ c, c ∈ l →
         (run_script false l s).2 !! ct_name c = Some (OTable (new_table c)))
    ∧ (∀ n, n ∉ ct_name <$> l → (run_script false l s).2 !! n = s !! n).
Proof.
  induction l as [|c l IH]; intros Hcan Hnd s Hs; simpl.
  - split; [done|]. split; [|done]. intros c Hc. by apply elem_of_nil in Hc.
  - rewrite fmap_cons in Hnd. apply NoDup_cons in Hnd as [Hc Hnd].
    apply Forall_cons in Hcan as [Hcc Hcan].
    rewrite exec_create_fresh by (done || apply Hs; left).
    set (s1 := <[ct_name c := OTable (new_table c)]> s).
    destruct (IH Hcan Hnd s1) as (Hok & Hin & Hout).
    { intros c' Hc'. unfold s1. rewrite lookup_insert_ne.
      - apply Hs. by right.
      - intros E. apply Hc. rewrite E. by apply list_elem_of_fmap_2. }
    split; [done|]. split.
    + intros c' [->|Hc']%elem_of_cons; [|by apply Hin].
      apply run_script_frame. apply lookup_insert_eq.
    + intros n Hn.
      apply not_elem_of_cons in Hn as [Hn1 Hn2].
      rewrite (Hout n Hn2). unfold s1. by rewrite lookup_insert_ne.
Qed.

Lemma migration_names_NoDup : NoDup (ct_name <$> migration_script).
Proof. apply (bool_decide_unpack _). by vm_compute. Qed.

Lemma spec_names_script : spec_names = ct_name <$> migration_script.
Proof. reflexivity. Qed.

(** Statement by statement, the table a CREATE TABLE of the script makes
    reads as the entry of the specification at the same position. *)
Lemma script_matches_spec :
  Forall2 (λ e c, e.1 = ct_name c ∧ canon e.1 = e.1
                  ∧ describe (new_table c) = e.2)
    spec_schema migration_script.
Proof. repeat constructor. Qed.

Lemma as_specified_all s entries script :
  Forall2 (λ e c, e.1 = ct_name c ∧ canon e.1 = e.1
                  ∧ describe (new_table c) = e.2) entries script →
  (∀ c, c ∈ script → s !! ct_name c = Some (OTable (new_table c))) →
  forallb (as_specified s) entries = true.
Proof.
  induction 1 as [|e c entries script (He1 & Hcan & He2) _ IH]; intros Hs;
    simpl; [done|].
  rewrite IH by (intros c' Hc'; apply Hs; by right).
  unfold as_specified. rewrite (find_object_canon _ _ Hcan), He1, (Hs c) by left.
  by rewrite He2, bool_decide_eq_true_2.
Qed.

Lemma schema_as_specified_intro s :
  (∀ c, c ∈ migration_script → s !! ct_name c = Some (OTable (new_table c))) →
  schema_as_specified s = true.
Proof. apply as_specified_all, script_matches_spec. Qed.

(** C2 (as the code has it): against a store whose write lock is free and
    that holds nothing under any of the nine names, in whatever letter case
    the object was created (an empty store in particular), run_migrations
    returns normally, the nine tables student, attendance, assessment,
    submission, wellbeing_record, alert, retention_rule, audit_log and user
    then exist, empty, each reading column for column and constraint for
    constraint as the specification's schema section lists it, and these
    nine are the only names added to the store. *)
Theorem run_migrations_fresh_store_creates_schema (w : world) :
  canonical (db w) →
  busy w = false →
  (∀ n, n ∈ spec_names → db w !! n = None) →
  (run_migrations w).1 = Ok tt
  ∧ schema_as_specified (db (run_migrations w).2) = true
  ∧ (∀ n, n ∈ spec_names →
       ∃ t, db (run_migrations w).2 !! n = Some (OTable t) ∧ t_rows t = [])
  ∧ dom (db (run_migrations w).2) = dom (db w) ∪ list_to_set spec_names
  ∧ canonical (db (run_migrations w).2).
Proof.
  intros Hcanon Hbusy Hfresh.
  rewrite run_migrations_result, run_migrations_db, Hbusy.
  destruct (run_script_fresh migration_script) with (s := db w)
    as (Hok & Hin & Hout).
  { apply migration_script_canonical. }
  { apply migration_names_NoDup. }
  { intros c Hc. apply Hfresh. rewrite spec_names_script.
    by apply list_elem_of_fmap_2. }
  split; [done|]. split; [by apply schema_as_specified_intro|].
  split; [|split].
  - intros n Hn. rewrite spec_names_script in Hn.
    apply list_elem_of_fmap in Hn as (c & -> & Hc).
    exists (new_table c). by rewrite (Hin c Hc).
  - apply set_eq. intros n.
    rewrite elem_of_union, !elem_of_dom, elem_of_list_to_set.
    destruct (decide (n ∈ spec_names)) as [Hn|Hn].
    + split; [by right|]. intros _. rewrite spec_names_script in Hn.
      apply list_elem_of_fmap in Hn as (c & -> & Hc). by rewrite (Hin c Hc).
    + rewrite (Hout n) by by rewrite <- spec_names_script.
      split; [by left|]. by intros [?|?].
  - by apply run_script_canonical.
Qed.

Lemma run_migrations_fresh_store_creates_schema_witness :
  canonical (db empty_world)
  ∧ busy empty_world = false
  ∧ (∀ n, n ∈ spec_names → db empty_world !! n = None)
  ∧ (run_migrations empty_world).1 = Ok tt
  ∧ schema_as_specified (db (run_migrations empty_world).2) = true.
Proof.
  assert (Hc : canonical (db empty_world)) by apply map_Forall_empty.
  assert (H : ∀ n, n ∈ spec_names → db empty_world !! n = None)
    by (intros n _; apply lookup_empty).
  split; [exact Hc|]. split; [reflexivity|]. split; [exact H|].
  destruct (run_migrations_fresh_store_creates_schema empty_world Hc eq_refl H)
    as (H1 & H2 & _).
  exact (conj H1 H2).
Defined.

(** C2 (the claim as written fails): against the store an older version
    left behind, where student is a two-column table, run_migrations returns
    normally and student still has its two columns, so the store does not
    read as the schema section lists it. *)
Lemma run_migrations_legacy_store_not_as_specified :
  (run_migrations legacy_world).1 = Ok tt
  ∧ db (run_migrations legacy_world).2 !! "student" = Some (OTable legacy_student)
  ∧ schema_as_specified (db (run_migrations legacy_world).2) = false.
Proof. by vm_compute. Qed.

(** ** INSERT: keys, uniqueness, foreign keys *)

Lemma largest_key_ge rows i n :
  VInt n ∈ column_values rows i →
  ∃ m, largest_key rows i = Some m ∧ (n ≤ m)%Z.
Proof.
  unfold largest_key. generalize (column_values rows i). intros l.
  induction l as [|x l IH]; intros Hv; [by apply elem_of_nil in Hv|].
  cbn [foldr]. apply elem_of_cons in Hv as [<-|Hv].
  - destruct (foldr _ None l) as [m|]; eexists; (split; [done|lia]).
  - destruct (IH Hv) as (m & -> & Hm).
    destruct x; eexists; (split; [done|lia]).
Qed.

Lemma largest_key_elem rows i m :
  largest_key rows i = Some m → VInt m ∈ column_values rows i.
Proof.
  unfold largest_key. generalize (column_values rows i). intros l. revert m.
  induction l as [|x l IH]; intros m; [done|]. cbn [foldr].
  destruct x as [|n| |]; try (intros H; right; by apply IH).
  destruct (foldr _ None l) as [k|]; intros [= <-]; [|by left].
  destruct (Z.max_spec n k) as [[_ ->]|[_ ->]]; [right; by apply IH|by left].
Qed.

(** While keys are left the engine picks one that no stored row has, that
    still fits, and that under AUTOINCREMENT lies beyond every key ever
    used. *)
Lemma next_key_ok a t i :
  (t_seq t < max_rowid)%Z →
  (∀ n, VInt n ∈ column_values (t_rows t) i → (n < max_rowid)%Z) →
  ∃ k, next_key a t i = Ok k
       ∧ (VInt k ∉ column_values (t_rows t) i)
       ∧ (k ≤ max_rowid)%Z
       ∧ (∀ n, VInt n ∈ column_values (t_rows t) i → (n < k)%Z)
       ∧ (a = true → (t_seq t < k)%Z)
       ∧ (∀ m, (∀ n, VInt n ∈ column_values (t_rows t) i → (n < m)%Z) →
               (a = true → (t_seq t < m)%Z) →
               ((∀ n, VInt n ∉ column_values (t_rows t) i) → (1 ≤ m)%Z) →
               (k ≤ m)%Z).
Proof.
  intros Hseq Hkeys. unfold next_key.
  rewrite (bool_decide_eq_false_2 (max_rowid ≤ t_seq t)%Z) by lia.
  rewrite andb_false_r, orb_false_r.
  destruct (largest_key (t_rows t) i) as [m|] eqn:E.
  - pose proof (Hkeys m (largest_key_elem _ _ _ E)) as Hm.
    rewrite bool_decide_eq_false_2 by lia.
    assert (Hlt : ∀ n, VInt n ∈ column_values (t_rows t) i → (n ≤ m)%Z).
    { intros n (m' & Hm' & Hle)%largest_key_ge. congruence. }
    eexists. split; [done|].
    split; [intros H%Hlt; destruct a; lia|].
    split; [destruct a; lia|].
    split; [intros n H%Hlt; destruct a; lia|].
    split; [intros ->; lia|].
    intros m' Hm' Hs' _. specialize (Hm' m (largest_key_elem _ _ _ E)).
    destruct a; [specialize (Hs' eq_refl)|]; lia.
  - assert (Hno : ∀ n, VInt n ∉ column_values (t_rows t) i).
    { intros n (m' & Hm' & _)%largest_key_ge. congruence. }
    eexists. split; [done|].
    split; [apply Hno|]. unfold max_rowid in *.
    split; [destruct a; lia|].
    split; [intros n H; by apply Hno in H|].
    split; [intros ->; lia|].
    intros m' _ Hs' H1. specialize (H1 Hno).
    destruct a; [specialize (Hs' eq_refl)|]; lia.
Qed.

Lemma indexed_from_elem cols : ∀ i ic,
  ic ∈ indexed_from i cols → ∃ j, ic.1 = (i + j)%nat ∧ cols !! j = Some ic.2.
Proof.
  induction cols as [|c cols IH]; intros i ic Hic; [by apply elem_of_nil in Hic|].
  cbn [indexed_from] in Hic. apply elem_of_cons in Hic as [->|Hic].
  - exists 0%nat. split; [simpl; lia|done].
  - destruct (IH _ _ Hic) as (j & Hj & Hc). exists (S j). split; [lia|done].
Qed.

Lemma unique_order_elem cols ic :
  ic ∈ unique_order cols → cols !! ic.1 = Some ic.2.
Proof.
  unfold unique_order. rewrite elem_of_app, elem_of_reverse.
  rewrite !list_elem_of_In, !filter_In, <- !list_elem_of_In.
  intros [[H _]|[H _]]; apply indexed_from_elem in H as (j & -> & Hj); done.
Qed.

Lemma find_none_intro {A} (f : A → bool) l :
  (∀ x, x ∈ l → f x = false) → List.find f l = None.
Proof.
  induction l as [|x l IH]; intros H; [done|]. cbn [List.find].
  rewrite (H x) by left. apply IH. intros y Hy. apply H. by right.
Qed.


(** A row that collides in no column passes the uniqueness checks. *)
Lemma check_unique_ok tbl rows cols r :
  (∀ i c, cols !! i = Some c → collides rows r (i, c) = false) →
  check_unique tbl rows cols r = Ok tt.
Proof.
  intros H. unfold check_unique. rewrite find_none_intro; [done|].
  intros [i c] Hic. apply H. by apply (unique_order_elem cols (i, c)).
Qed.


Lemma has_schema_declared s c :
  has_schema s = true → c ∈ migration_script →
  ∃ t, s !! ct_name c = Some (OTable t)
       ∧ find_object s (ct_name c) = Some (OTable t)
       ∧ t_columns t = ct_columns c ∧ t_constraints t = ct_constraints c.
Proof.
  unfold has_schema. intros H Hc.
  assert (Hcan : canon (ct_name c) = ct_name c).
  { by apply (proj1 (Forall_forall _ _) migration_script_canonical). }
  rewrite forallb_forall in H. apply list_elem_of_In, H in Hc.
  unfold declared_as in Hc. rewrite (find_object_canon _ _ Hcan) in *.
  destruct (s !! ct_name c) as [[t| |ix]|]; try done.
  apply andb_true_iff in Hc as [H1%bool_decide_eq_true H2%bool_decide_eq_true].
  eauto.
Qed.



(** Columns that carry no constraint pass every per-column check. *)
Lemma check_not_null_plain tbl cols : ∀ r,
  Forall (λ c, cd_constraints c = []) cols → check_not_null tbl cols r = Ok tt.
Proof.
  induction cols as [|c cols IH]; intros r Hcols; [by destruct r|].
  apply Forall_cons in Hcols as [Hc Hcols]. destruct r as [|v r]; [done|].
  cbn [check_not_null]. unfold has_constraint. rewrite Hc.
  rewrite (bool_decide_eq_false_2 (NOT_NULL ∈ [])) by apply not_elem_of_nil.
  by apply IH.
Qed.

Lemma collides_plain rows r i c :
  cd_constraints c = [] → collides rows r (i, c) = false.
Proof.
  intros Hc. unfold collides, has_constraint. cbn [fst snd]. rewrite Hc.
  rewrite (bool_decide_eq_false_2 (PRIMARY_KEY ∈ [])) by apply not_elem_of_nil.
  by rewrite (bool_decide_eq_false_2 (UNIQUE ∈ [])) by apply not_elem_of_nil.
Qed.

(** The key the engine assigns to a row of a table whose first column is
    an AUTOINCREMENT key: the key the row brings, or the next one. *)
Lemma assign_first_key (t : table) (k : string) (rest : list column_def)
    (kv : value) (vals : list value) :
  (kv = NULL ∧ (t_seq t < max_rowid)%Z
   ∧ ∀ n, VInt n ∈ column_values (t_rows t) 0 → (n < max_rowid)%Z)
  ∨ (∃ n, kv = VInt n ∧ VInt n ∉ column_values (t_rows t) 0) →
  ∃ m, assign_row_key t
         (Column k INTEGER [PRIMARY_KEY; AUTOINCREMENT] :: rest) 0 (kv :: vals)
       = Ok (VInt m :: vals)
       ∧ VInt m ∉ column_values (t_rows t) 0.
Proof.
  intros [(-> & Hseq & Hkeys)|(n & -> & Hn)].
  - destruct (next_key_ok true t 0 Hseq Hkeys) as (m & Hm & Hfree & _).
    exists m. split; [|done].
    cbn [assign_row_key]. change (is_row_key _) with true. cbv iota.
    change (has_constraint AUTOINCREMENT _) with true. by rewrite Hm.
  - by exists n.
Qed.

(** A table shaped like the four children of student (an AUTOINCREMENT key,
    then student_id, then unconstrained columns, with the foreign key to
    student declared first and the other foreign keys resolving) rejects a
    row whose student_id is set and unknown. *)
Lemma exec_insert_child_rejected (s : store) (b : bool) (tbl k : string)
    (t p : table) (rest : list column_def) (fks : list table_constraint)
    (l : list (nat * table * nat)) (kv sid : value) (vals : list value) :
  find_object s tbl = Some (OTable t) →
  t_columns t = Column k INTEGER [PRIMARY_KEY; AUTOINCREMENT]
                  :: Column "student_id" TEXT [] :: rest →
  canon k ≠ "student_id" →
  Forall (λ c, cd_constraints c = []) rest →
  t_constraints t = FOREIGN_KEY "student_id" "student" "student_id" :: fks →
  resolve_foreign_keys s tbl (t_columns t) fks = Ok l →
  find_object s "student" = Some (OTable p) →
  t_columns p = ct_columns create_student →
  length vals = length rest →
  (kv = NULL ∧ (t_seq t < max_rowid)%Z
   ∧ ∀ n, VInt n ∈ column_values (t_rows t) 0 → (n < max_rowid)%Z)
  ∨ (∃ n, kv = VInt n ∧ VInt n ∉ column_values (t_rows t) 0) →
  sid ≠ NULL →
  sid ∉ column_values (t_rows p) 0 →
  exec_insert true b tbl (kv :: sid :: vals) s
  = Raise (IntegrityError FOREIGN_KEY_failed).
Proof.
  intros Ht Hcols Hk Hrest Hfks Hres Hp Hpcols Hlen Hkey Hnn Hmiss.
  unfold exec_insert. rewrite Ht. rewrite Hcols in Hres |- *. rewrite Hfks.
  rewrite bool_decide_eq_true_2 by (cbn [length]; congruence). cbn [negb].
  destruct (assign_first_key t k (Column "student_id" TEXT [] :: rest)
              kv (sid :: vals) Hkey) as (m & -> & Hm).
  assert (Hplain : Forall (λ c, cd_constraints c = [])
                     (Column "student_id" TEXT [] :: rest))
    by by constructor.
  assert (check_not_null tbl
            (Column k INTEGER [PRIMARY_KEY; AUTOINCREMENT]
               :: Column "student_id" TEXT [] :: rest) (VInt m :: sid :: vals)
          = Ok tt) as ->.
  { cbn [check_not_null]. by rewrite (check_not_null_plain _ _ _ Hrest). }
  rewrite check_unique_ok.
  2:{ intros [|i] c Hc.
      - injection Hc as <-. unfold collides. cbn [fst snd].
        change (cell (VInt m :: sid :: vals) 0) with (VInt m).
        by rewrite (bool_decide_eq_false_2 _ Hm), andb_false_r.
      - apply collides_plain. cbn in Hc.
        by apply (proj1 (Forall_lookup _ _) Hplain i c). }
  unfold check_foreign_keys.
  cbn [resolve_foreign_keys column_index cd_name].
  change (canon "student_id") with "student_id".
  rewrite decide_False by done. rewrite decide_True by done.
  change (S <$> Some 0) with (Some 1). cbv beta iota.
  rewrite Hp, Hpcols.
  change (column_index "student_id" (ct_columns create_student)) with (Some 0).
  cbv beta iota. change (is_key_column (ct_columns create_student) 0) with true.
  cbn [negb]. rewrite Hres. cbn [check_references].
  change (cell (VInt m :: sid :: vals) 1) with sid.
  by rewrite (bool_decide_eq_false_2 _ Hnn), (bool_decide_eq_false_2 _ Hmiss).
Qed.

Lemma get_db_connection_configured w0 h w :
  get_db_connection w0 = (Ok h, w) →
  h = next_conn w0 ∧ conns w !! h = Some configured ∧ db w = db w0
  ∧ next_conn w = S h.
Proof.
  rewrite get_db_connection_eq. intros [= <- <-]. cbn [conns db next_conn].
  by rewrite lookup_insert_eq.
Qed.

(** C4 (as the code has it): on a store with the migrated schema whose
    student table holds its student_ids as texts, a row for attendance,
    submission, wellbeing_record or alert whose student_id is a text that is
    not the student_id of any stored student, whose own key is left to the
    engine (which has keys left) or is an unused integer, and whose integers
    fit in 64 bits, is rejected when inserted over a connection from
    get_db_connection: the engine raises the foreign-key violation and the
    world, the target table included, is as it was before.  (A row that
    names no student, its student_id NULL, is not covered: the engine
    stores it.) *)
Theorem child_row_requires_student (w0 w : world) (h : nat)
    (c : create_table) (r : list value) (sid : string) :
  get_db_connection w0 = (Ok h, w) →
  busy w = false →
  canonical (db w) →
  has_schema (db w) = true →
  Forall text_or_null (stored (db w) "student" "student_id") →
  c ∈ student_children →
  length r = length (ct_columns c) →
  ints_in_range r →
  row_field c "student_id" r = VText sid →
  VText sid ∉ stored (db w) "student" "student_id" →
  key_free (db w) (ct_name c) r →
  conn_execute h (INSERT_INTO (ct_name c) r) w
  = (Raise (IntegrityError FOREIGN_KEY_failed), w).
Proof.
  intros (_ & Hh & _ & _)%get_db_connection_configured Hbusy _ Hschema _ Hc Hlen
    _ Hsid Hmiss Hkey.
  rewrite (conn_execute_insert _ _ _ _ _ Hh eq_refl).
  destruct (has_schema_declared _ create_student Hschema)
    as (p & _ & Hp & Hpcols & _).
  { repeat constructor. }
  change (ct_name create_student) with "student" in Hp.
  unfold stored in Hmiss. rewrite Hp, Hpcols in Hmiss.
  change (column_index "student_id" (ct_columns create_student)) with (Some 0) in Hmiss.
  cbv beta iota in Hmiss.
  destruct (has_schema_declared _ create_assessment Hschema)
    as (a & _ & Ha & Hacols & _).
  { repeat constructor. }
  change (ct_name create_assessment) with "assessment" in Ha.
  destruct (has_schema_declared _ c Hschema) as (t & _ & Ht & Htcols & Htfks).
  { unfold student_children in Hc. unfold migration_script.
    rewrite !elem_of_cons in *. tauto. }
  assert (Hkey' : (cell r 0 = NULL ∧ (t_seq t < max_rowid)%Z
                   ∧ ∀ n, VInt n ∈ column_values (t_rows t) 0 → (n < max_rowid)%Z)
                  ∨ (∃ n, cell r 0 = VInt n ∧ VInt n ∉ column_values (t_rows t) 0)).
  { unfold key_free, keys_left, stored_keys in Hkey. rewrite Ht in Hkey.
    destruct Hkey as [[H1 [H2 H3]]|H]; [left|right]; [|done].
    split; [done|]. split; [lia|]. intros n Hn%H3. lia. }
  clear Hkey. cbn [foreign_keys configured].
  destruct r as [|kv [|sid' vals]];
    [by repeat (apply elem_of_cons in Hc as [->|Hc]); try by apply elem_of_nil in Hc..|].
  change (cell (kv :: sid' :: vals) 0) with kv in Hkey'.
  unfold student_children in Hc.
  repeat (apply elem_of_cons in Hc as [->|Hc]); [..|by apply elem_of_nil in Hc];
    change (row_field _ "student_id" (kv :: sid' :: vals)) with sid' in *;
    subst sid';
    (erewrite exec_insert_child_rejected; [done|exact Ht|exact Htcols|done
      |by repeat constructor|exact Htfks| |exact Hp|exact Hpcols
      |by injection Hlen|exact Hkey'|done|exact Hmiss]);
    rewrite Htcols; cbn [resolve_foreign_keys column_index cd_name];
    try reflexivity.
  rewrite Ha, Hacols. reflexivity.
Qed.

Lemma child_row_requires_student_witness :
  conn_execute connected_handle (INSERT_INTO "attendance" attendance_row_invalid)
    connected_world
  = (Raise (IntegrityError FOREIGN_KEY_failed), connected_world).
Proof.
  apply (child_row_requires_student migrated_world connected_world
           connected_handle create_attendance attendance_row_invalid "INVALID").
  - reflexivity.
  - reflexivity.
  - change (canonical (run_script false migration_script ∅).2).
    apply run_script_canonical, map_Forall_empty.
  - reflexivity.
  - constructor.
  - apply list_elem_of_here.
  - reflexivity.
  - repeat constructor.
  - reflexivity.
  - apply not_elem_of_nil.
  - left. split; [reflexivity|]. unfold keys_left.
    change (find_object (db connected_world) (ct_name create_attendance))
      with (Some (OTable (new_table create_attendance))).
    split; [cbn; unfold max_rowid; lia|].
    intros n Hn. by apply elem_of_nil in Hn.
Defined.

(** C4 (the claim as written fails): on the freshly migrated store, over a
    connection from get_db_connection, an attendance row that names no
    student at all (student_id NULL, which is the student_id of no stored
    student) is accepted and stored. *)
Lemma child_row_with_null_student_is_stored :
  get_db_connection migrated_world = (Ok connected_handle, connected_world)
  ∧ (row_field create_attendance "student_id" attendance_row_no_student
      ∉ stored (db connected_world) "student" "student_id")
  ∧ (conn_execute connected_handle
       (INSERT_INTO "attendance" attendance_row_no_student) connected_world).1
    = Ok []
  ∧ stored (db (conn_execute connected_handle
                  (INSERT_INTO "attendance" attendance_row_no_student)
                  connected_world).2) "attendance" "session_id"
    = [VText "S1"].
Proof.
  split; [reflexivity|]. split; [apply not_elem_of_nil|].
  split; reflexivity.
Qed.

(** Foreign keys are a setting of the handle, off until the pragma is
    issued: over a connection made by sqlite3.connect alone the same row
    with an unknown student_id is stored. *)
Lemma bare_connection_skips_foreign_keys :
  ((h <- sqlite3_connect ;;
    conn_execute h (INSERT_INTO "attendance" attendance_row_invalid))
     migrated_world).1 = Ok [].
Proof. reflexivity. Qed.

(** ** Connection handles *)

Lemma conn_execute_next_conn h stmt w :
  next_conn (conn_execute h stmt w).2 = next_conn w.
Proof.
  unfold conn_execute, bind, the_open.
  destruct (conns w !! h) as [c|]; [|done].
  destruct (closed c); [done|].
  destruct stmt as [ct|on|tbl r|tbl]; cbn [snd]; [| done | |].
  - by destruct (exec_create (busy w) ct (db w)).
  - by destruct (exec_insert (foreign_keys c) (busy w) tbl r (db w)).
  - by destruct (exec_select_all tbl (db w)) as [[names rows]|].
Qed.

(** No call ever takes an identity back. *)
Lemma perform_next_conn c w : (next_conn w ≤ next_conn (perform c w))%nat.
Proof.
  destruct c as [| | |h stmt|h|h]; unfold perform.
  - rewrite get_db_connection_eq. cbn. lia.
  - unfold get_db_pool. rewrite get_db_connection_eq. cbn. lia.
  - rewrite run_migrations_next_conn. lia.
  - by rewrite conn_execute_next_conn.
  - unfold conn_commit, bind, the_open, ret.
    destruct (conns w !! h) as [c|]; [|done]. by destruct (closed c).
  - unfold conn_close. by destruct (conns w !! h).
Qed.






Lemma select_order_Permutation t : select_order t ≡ₚ t_rows t.
Proof.
  unfold select_order. destruct (row_key_index (t_columns t)); [|done].
  apply merge_sort_Permutation.
Qed.



(** C8: get_db_pool is get_db_connection (same result on every world), and
    it pools nothing: two calls in a row hand out two different handles,
    both open and configured at the same time. *)
Theorem get_db_pool_is_get_db_connection (w : world) :
  get_db_pool w = get_db_connection w
  ∧ ∃ h1 w1 h2 w2,
      get_db_pool w = (Ok h1, w1) ∧ get_db_pool w1 = (Ok h2, w2)
      ∧ h1 ≠ h2
      ∧ conns w2 !! h1 = Some configured ∧ conns w2 !! h2 = Some configured.
Proof.
  split; [done|]. unfold get_db_pool.
  eexists _, _, _, _. split; [apply get_db_connection_eq|].
  split; [apply get_db_connection_eq|]. cbn [next_conn conns].
  split; [lia|]. split; [|apply lookup_insert_eq].
  rewrite lookup_insert_ne by lia. apply lookup_insert_eq.
Qed.

(** ** Data records *)

(** C7 (observed on the code): AttendanceRecord and Alert mirror the
    attendance and alert tables field for field; Student and AuditLog do not
    mirror theirs.  Student declares year as str where the column is
    INTEGER; AuditLog declares user_id as int where the column is TEXT and
    spells its third field entitiy_type where the column is entity_type. *)
Theorem dataclasses_against_tables :
  mirrors AttendanceRecord.fields create_attendance = true
  ∧ mirrors Alert.fields create_alert = true
  ∧ mirrors Student.fields create_student = false
  ∧ mirrors AuditLog.fields create_audit_log = false
  ∧ Student.fields !! 5 = Some ("year", py_str)
  ∧ mirror_of create_student !! 5 = Some ("year", py_int)
  ∧ AuditLog.fields !! 1 = Some ("user_id", py_int)
  ∧ mirror_of create_audit_log !! 1 = Some ("user_id", py_str)
  ∧ AuditLog.fields !! 2 = Some ("entitiy_type", py_str)
  ∧ mirror_of create_audit_log !! 2 = Some ("entity_type", py_str).
Proof. by vm_compute. Qed.

(** C10: an Alert built without the resolved argument is unresolved
    (resolved is False), whatever the other five fields are. *)
Theorem Alert_resolved_defaults_to_False (alert_id : Z)
    (student_id alert_type reason : string) (created_at : datetime) :
  Alert.resolved
    (Alert.__init__ alert_id student_id alert_type reason created_at None)
  = false.
Proof. reflexivity. Qed.

(** * Further properties of the same code *)

(** ** run_migrations on an arbitrary store *)

Lemma first_clash_insert l n o : ∀ s,
  canonical_names l →
  n ∉ ct_name <$> l → first_clash l (<[n:=o]> s) = first_clash l s.
Proof.
  induction l as [|c l IH]; intros s Hcan Hn; [done|].
  rewrite fmap_cons in Hn. apply not_elem_of_cons in Hn as [Hn1 Hn2].
  apply Forall_cons in Hcan as [Hc Hcan].
  cbn [first_clash]. rewrite !(find_object_canon _ _ Hc).
  rewrite lookup_insert_ne by done. by rewrite IH.
Qed.

Lemma before_clash_insert l n o : ∀ s,
  canonical_names l →
  n ∉ ct_name <$> l → before_clash l (<[n:=o]> s) = before_clash l s.
Proof.
  induction l as [|c l IH]; intros s Hcan Hn; [done|].
  rewrite fmap_cons in Hn. apply not_elem_of_cons in Hn as [Hn1 Hn2].
  apply Forall_cons in Hcan as [Hc Hcan].
  cbn [before_clash]. rewrite !(find_object_canon _ _ Hc).
  rewrite lookup_insert_ne by done. by rewrite IH.
Qed.

Lemma tables_of_cons c l :
  tables_of (c :: l) = <[ct_name c := OTable (new_table c)]> (tables_of l).
Proof. done. Qed.

Lemma union_insert_taken (s m : store) n o o' :
  s !! n = Some o → s ∪ <[n:=o']> m = s ∪ m.
Proof.
  intros Hn. apply map_eq. intros i. rewrite !lookup_union.
  destruct (decide (n = i)) as [<-|Hne].
  - rewrite Hn. by destruct (<[n:=o']> m !! n), (m !! n).
  - by rewrite lookup_insert_ne.
Qed.

(** With the write lock free, a script of IF NOT EXISTS statements with
    pairwise distinct names runs up to the first name an index holds; the
    store it leaves is the store it found, completed by the empty tables of
    the statements in front of that one. *)
Lemma run_script_outcome l :
  canonical_names l →
  NoDup (ct_name <$> l) →
  Forall (λ c, ct_if_not_exists c = true) l →
  ∀ s, run_script false l s =
         (match first_clash l s with
          | None => Ok tt
          | Some c => Raise (OperationalError (index_already_named (ct_name c)))
          end,
          s ∪ tables_of (before_clash l s)).
Proof.
  induction l as [|c l IH]; intros Hcan Hnd Hl s.
  - cbn. by rewrite (right_id_L ∅ (∪)).
  - rewrite fmap_cons in Hnd. apply NoDup_cons in Hnd as [Hc Hnd].
    apply Forall_cons in Hl as [Hif Hl].
    apply Forall_cons in Hcan as [Hcc Hcan].
    cbn [run_script first_clash before_clash]. unfold exec_create.
    rewrite Hif, Hcc, (find_object_canon _ _ Hcc).
    destruct (s !! ct_name c) as [[t| |ix]|] eqn:E.
    + rewrite (IH Hcan Hnd Hl), tables_of_cons. by erewrite union_insert_taken.
    + rewrite (IH Hcan Hnd Hl), tables_of_cons. by erewrite union_insert_taken.
    + cbn. by rewrite (right_id_L ∅ (∪)).
    + rewrite (IH Hcan Hnd Hl), first_clash_insert, before_clash_insert by done.
      by rewrite tables_of_cons, <- insert_union_l, insert_union_r.
Qed.

Lemma first_clash_None l s :
  canonical_names l →
  first_clash l s = None ↔ ∀ c ix, c ∈ l → s !! ct_name c ≠ Some (OIndex ix).
Proof.
  induction l as [|c l IH]; intros Hcan; cbn [first_clash].
  - split; [|done]. intros _ c ix Hc. by apply elem_of_nil in Hc.
  - apply Forall_cons in Hcan as [Hcc Hcan]. specialize (IH Hcan).
    rewrite (find_object_canon _ _ Hcc).
    destruct (s !! ct_name c) as [[t| |ix]|] eqn:E.
    + rewrite IH. split.
      * intros H c' ix' [->|Hc']%elem_of_cons; [congruence|by apply H].
      * intros H c' ix' Hc'. apply H. by right.
    + rewrite IH. split.
      * intros H c' ix' [->|Hc']%elem_of_cons; [congruence|by apply H].
      * intros H c' ix' Hc'. apply H. by right.
    + split; [done|]. intros H. destruct (H c ix); [by left|done].
    + rewrite IH. split.
      * intros H c' ix' [->|Hc']%elem_of_cons; [congruence|by apply H].
      * intros H c' ix' Hc'. apply H. by right.
Qed.

Lemma index_clash_world_canonical : canonical (db index_clash_world).
Proof.
  apply map_Forall_insert_2; [done|].
  apply map_Forall_insert_2; [done|]. apply map_Forall_empty.
Qed.

(** X1: run_migrations on any store whose write lock is free, the objects
    of the store being looked up whatever the letter case of their names.
    It stops at the first of its nine statements whose table name is held
    by an index and raises the engine's error for that name; without such a
    statement it returns normally.  Either way the store it leaves is the
    store it found plus the empty tables of the statements in front of the
    stopping point, names already taken keeping what they held. *)
Theorem run_migrations_outcome (w : world) :
  canonical (db w) →
  busy w = false →
  (run_migrations w).1 =
    match first_clash migration_script (db w) with
    | None => Ok tt
    | Some c => Raise (OperationalError (index_already_named (ct_name c)))
    end
  ∧ db (run_migrations w).2
    = db w ∪ tables_of (before_clash migration_script (db w)).
Proof.
  intros _ Hbusy. rewrite run_migrations_result, run_migrations_db, Hbusy.
  by rewrite (run_script_outcome _ migration_script_canonical
                migration_names_NoDup migration_script_if_not_exists).
Qed.

Lemma run_migrations_outcome_witness :
  (run_migrations index_clash_world).1
  = Raise (OperationalError (index_already_named "attendance"))
  ∧ db (run_migrations index_clash_world).2
    = db index_clash_world ∪ tables_of [create_student].
Proof.
  exact (run_migrations_outcome index_clash_world
           index_clash_world_canonical eq_refl).
Defined.

(** X2: with the write lock free, run_migrations returns normally exactly
    when none of the nine table names is the name of an index in the
    store. *)
Theorem run_migrations_ok_iff (w : world) :
  canonical (db w) →
  busy w = false →
  (run_migrations w).1 = Ok tt
  ↔ ∀ n ix, n ∈ spec_names → db w !! n ≠ Some (OIndex ix).
Proof.
  intros _ Hbusy. rewrite run_migrations_result, Hbusy.
  rewrite (run_script_outcome _ migration_script_canonical
             migration_names_NoDup migration_script_if_not_exists). cbn [fst].
  rewrite spec_names_script. split.
  - intros H n ix (c & -> & Hc)%list_elem_of_fmap.
    destruct (first_clash migration_script (db w)) eqn:E; [done|].
    by apply (proj1 (first_clash_None _ _ migration_script_canonical) E).
  - intros H.
    rewrite (proj2 (first_clash_None migration_script (db w)
                      migration_script_canonical)); [done|].
    intros c ix Hc. apply H. by apply list_elem_of_fmap_2.
Qed.

Lemma run_migrations_ok_iff_witness :
  (run_migrations legacy_world).1 = Ok tt
  ∧ (run_migrations index_clash_world).1 ≠ Ok tt.
Proof.
  split.
  - apply (run_migrations_ok_iff legacy_world).
    + apply map_Forall_insert_2; [done|]. apply map_Forall_empty.
    + reflexivity.
    + intros n ix _. cbn [db legacy_world].
      destruct (decide (n = "student")) as [->|Hn].
      * by rewrite lookup_insert_eq.
      * by rewrite lookup_insert_ne, lookup_empty.
  - intros H.
    pose proof (proj1 (run_migrations_ok_iff index_clash_world
                         index_clash_world_canonical eq_refl) H) as H'.
    apply (H' "attendance" "notes"); [|reflexivity].
    apply (bool_decide_unpack _). by vm_compute.
Defined.

(** X3: what run_migrations prints.  Whatever was printed before stays;
    the two opening lines are always added; the completion line is added
    exactly when run_migrations returns normally. *)
Theorem run_migrations_output (w : world) :
  stdout (run_migrations w).2
  = (stdout w ++ migration_prologue
       ++ match (run_migrations w).1 with
          | Ok _ => migration_epilogue
          | Raise _ => []
          end)%list.
Proof.
  rewrite run_migrations_eq.
  destruct (run_script (busy w) migration_script (db w)) as [[[]|e] s]; cbn [fst snd stdout].
  - by rewrite <- app_assoc.
  - by rewrite app_nil_r.
Qed.

(** X4: run_migrations works on a connection of its own.  It takes exactly
    one new identity for it, and every other connection object is, after
    the call, exactly as it was before. *)
Theorem run_migrations_other_connections (w : world) (h : nat) :
  h ≠ next_conn w →
  conns (run_migrations w).2 !! h = conns w !! h
  ∧ next_conn (run_migrations w).2 = S (next_conn w).
Proof.
  intros Hh. rewrite run_migrations_eq.
  destruct (run_script (busy w) migration_script (db w)) as [[[]|e] s];
    cbn [snd conns next_conn]; by rewrite lookup_insert_ne.
Qed.

Lemma run_migrations_other_connections_witness :
  conns (run_migrations connected_world).2 !! connected_handle = Some configured.
Proof.
  destruct (run_migrations_other_connections connected_world connected_handle)
    as [-> _]; [by vm_compute|reflexivity].
Defined.

(** ** Handles are independent objects *)

Lemma conn_close_eq h w :
  conn_close h w =
    (Ok tt,
     match conns w !! h with
     | Some c => set_conn h {| row_factory := row_factory c;
                               foreign_keys := foreign_keys c;
                               closed := true |} w
     | None => w
     end).
Proof. unfold conn_close. by destruct (conns w !! h). Qed.

Lemma conn_close_other h h' w :
  h ≠ h' → conns (conn_close h w).2 !! h' = conns w !! h'.
Proof.
  intros Hne. rewrite conn_close_eq. cbn [snd].
  destruct (conns w !! h); [|done]. cbn [set_conn conns].
  by rewrite lookup_insert_ne.
Qed.

Lemma conn_close_db h w : db (conn_close h w).2 = db w.
Proof. rewrite conn_close_eq. cbn [snd]. by destruct (conns w !! h). Qed.

Lemma conn_close_busy h w : busy (conn_close h w).2 = busy w.
Proof. rewrite conn_close_eq. cbn [snd]. by destruct (conns w !! h). Qed.

(** What a statement returns and what it does to the store depend on the
    store, on its lock and on the connection object used, on nothing
    else. *)
Lemma conn_execute_depends h stmt w w' :
  conns w !! h = conns w' !! h → db w = db w' → busy w = busy w' →
  (conn_execute h stmt w).1 = (conn_execute h stmt w').1
  ∧ db (conn_execute h stmt w).2 = db (conn_execute h stmt w').2.
Proof.
  intros Hc Hdb Hb. unfold conn_execute, bind, the_open. rewrite <- Hc.
  destruct (conns w !! h) as [c|]; [|done].
  destruct (closed c); [done|].
  destruct stmt as [ct|on|tbl r|tbl]; cbv beta; rewrite <- ?Hdb, ?Hb;
    [| done | |].
  - by destruct (exec_create (busy w') ct (db w)).
  - by destruct (exec_insert (foreign_keys c) (busy w') tbl r (db w)).
  - by destruct (exec_select_all tbl (db w)) as [[names rows]|].
Qed.

Lemma conn_execute_closed h k stmt w :
  conns w !! h = Some k → closed k = true →
  conn_execute h stmt w = (Raise ProgrammingError_closed, w).
Proof.
  intros Hk Hc. unfold conn_execute, bind, the_open. by rewrite Hk, Hc.
Qed.

(** X5: two handles opened one after the other by get_db_connection, with
    nothing sent over either yet.  If one of them is closed at once, every
    statement then sent over the other returns what it would have returned
    and leaves the store it would have left had none been closed, while the
    closed one refuses every statement. *)
Theorem closing_a_handle_leaves_the_other_usable (w : world) (stmt : statement) :
  ∃ h1 w1 h2 w2,
    get_db_connection w = (Ok h1, w1) ∧ get_db_connection w1 = (Ok h2, w2)
    ∧ (conn_execute h2 stmt (conn_close h1 w2).2).1 = (conn_execute h2 stmt w2).1
    ∧ db (conn_execute h2 stmt (conn_close h1 w2).2).2
      = db (conn_execute h2 stmt w2).2
    ∧ (conn_execute h1 stmt (conn_close h2 w2).2).1 = (conn_execute h1 stmt w2).1
    ∧ db (conn_execute h1 stmt (conn_close h2 w2).2).2
      = db (conn_execute h1 stmt w2).2
    ∧ (conn_execute h1 stmt (conn_close h1 w2).2).1 = Raise ProgrammingError_closed
    ∧ (conn_execute h2 stmt (conn_close h2 w2).2).1 = Raise ProgrammingError_closed.
Proof.
  eexists _, _, _, _. split; [apply get_db_connection_eq|].
  split; [apply get_db_connection_eq|]. cbn [next_conn].
  set (h1 := next_conn w).
  set (w2 := {| db := _; conns := <[S h1:=configured]> _; next_conn := _;
                stdout := _; busy := _ |}).
  assert (H1 : conns w2 !! h1 = Some configured).
  { cbn. rewrite lookup_insert_ne by lia. apply lookup_insert_eq. }
  assert (H2 : conns w2 !! S h1 = Some configured) by apply lookup_insert_eq.
  destruct (conn_execute_depends (S h1) stmt (conn_close h1 w2).2 w2)
    as [E1 E2];
    [apply conn_close_other; lia|apply conn_close_db|apply conn_close_busy|].
  destruct (conn_execute_depends h1 stmt (conn_close (S h1) w2).2 w2)
    as [E3 E4];
    [apply conn_close_other; lia|apply conn_close_db|apply conn_close_busy|].
  do 4 (split; [done|]). split.
  - rewrite (conn_execute_closed h1 configured_closed); [done| |done].
    rewrite conn_close_eq, H1. cbn [snd set_conn conns]. apply lookup_insert_eq.
  - rewrite (conn_execute_closed (S h1) configured_closed); [done| |done].
    rewrite conn_close_eq, H2. cbn [snd set_conn conns]. apply lookup_insert_eq.
Qed.

(** A closed connection object is changed by no call, as long as its
    identity is one already handed out. *)
Lemma perform_keeps_closed c h k w :
  conns w !! h = Some k → closed k = true → (h < next_conn w)%nat →
  conns (perform c w) !! h = Some k.
Proof.
  intros Hk Hc Hlt. destruct c as [| | |h' stmt|h'|h']; unfold perform.
  - rewrite get_db_connection_eq. cbn [snd conns].
    by rewrite lookup_insert_ne by lia.
  - unfold get_db_pool. rewrite get_db_connection_eq. cbn [snd conns].
    by rewrite lookup_insert_ne by lia.
  - rewrite run_migrations_eq.
    destruct (run_script (busy w) migration_script (db w)) as [[[]|e] s];
      cbn [snd conns]; by rewrite lookup_insert_ne by lia.
  - destruct (decide (h' = h)) as [->|Hne].
    + by rewrite (conn_execute_closed _ _ _ _ Hk Hc).
    + unfold conn_execute, bind, the_open.
      destruct (conns w !! h') as [c|]; [|done].
      destruct (closed c); [done|].
      destruct stmt as [ct|on|tbl r|tbl]; cbn [snd].
      * by destruct (exec_create (busy w) ct (db w)).
      * cbn [set_conn conns]. by rewrite lookup_insert_ne.
      * by destruct (exec_insert (foreign_keys c) (busy w) tbl r (db w)).
      * by destruct (exec_select_all tbl (db w)) as [[names rows]|].
  - unfold conn_commit, bind, the_open, ret.
    destruct (conns w !! h') as [c|]; [|done]. by destruct (closed c).
  - rewrite conn_close_eq. cbn [snd].
    destruct (decide (h' = h)) as [->|Hne].
    + rewrite Hk. cbn [set_conn conns]. rewrite lookup_insert_eq.
      destruct k as [rf fk cl]. cbn in *. by subst.
    + destruct (conns w !! h'); [|done]. cbn [set_conn conns].
      by rewrite lookup_insert_ne.
Qed.

Lemma perform_all_keeps_closed cs h k : ∀ w,
  conns w !! h = Some k → closed k = true → (h < next_conn w)%nat →
  conns (perform_all cs w) !! h = Some k.
Proof.
  induction cs as [|c cs IH]; intros w Hk Hc Hlt; [done|].
  cbn [perform_all foldl]. apply IH; [by apply perform_keeps_closed|done|].
  pose proof (perform_next_conn c w). lia.
Qed.

(** X6: a handle from get_db_connection that has been closed stays closed.
    Whatever calls follow (new connections, migrations, statements, closing
    it again), the identity is never given to another connection and every
    statement sent over it raises ProgrammingError without touching the
    world. *)
Theorem closed_handle_stays_closed (w : world) (cs : list api_call)
    (stmt : statement) :
  ∃ h w1,
    get_db_connection w = (Ok h, w1)
    ∧ conns (perform_all cs (conn_close h w1).2) !! h = Some configured_closed
    ∧ conn_execute h stmt (perform_all cs (conn_close h w1).2)
      = (Raise ProgrammingError_closed, perform_all cs (conn_close h w1).2).
Proof.
  eexists _, _. split; [apply get_db_connection_eq|].
  set (h := next_conn w).
  set (w1 := {| db := _; conns := _; next_conn := _; stdout := _;
                busy := _ |}).
  assert (H : conns (perform_all cs (conn_close h w1).2) !! h
              = Some configured_closed).
  { apply perform_all_keeps_closed; [|done|].
    - rewrite conn_close_eq. cbn [conns w1]. rewrite lookup_insert_eq.
      cbn [snd set_conn conns]. apply lookup_insert_eq.
    - rewrite conn_close_eq. cbn [conns w1]. rewrite lookup_insert_eq.
      cbn. lia. }
  split; [done|]. by apply (conn_execute_closed _ _ _ _ H).
Qed.

(** ** What INSERT stores *)

(** A statement that goes through stored exactly one row, made of the
    values given with the key filled in, in the table it names. *)
Lemma exec_insert_inv fk b tbl r s s' :
  exec_insert fk b tbl r s = Ok s' →
  ∃ t r1, s !! key_of s tbl = Some (OTable t)
          ∧ length r = length (t_columns t)
          ∧ assign_row_key t (t_columns t) 0 r = Ok r1
          ∧ s' = <[key_of s tbl := OTable (store_row t r1)]> s.
Proof.
  unfold exec_insert, find_object. intros H.
  destruct (s !! key_of s tbl) as [[t| |ix]|]; try done.
  destruct (bool_decide (length r = length (t_columns t))) eqn:Hlen; [|done].
  apply bool_decide_eq_true in Hlen. cbn [negb] in H.
  destruct (assign_row_key t (t_columns t) 0 r) as [r1|] eqn:Ha; [|done].
  destruct (check_not_null tbl (t_columns t) r1); [|done].
  destruct (check_unique tbl (t_rows t) (t_columns t) r1); [|done].
  destruct (if fk then _ else _); [|done].
  destruct b; [done|].
  simplify_eq. by exists t, r1.
Qed.

(** ** Rows the schema accepts and rows it rejects *)

Lemma exec_insert_checked fk tbl t r r1 s :
  find_object s tbl = Some (OTable t) →
  length r = length (t_columns t) →
  assign_row_key t (t_columns t) 0 r = Ok r1 →
  check_not_null tbl (t_columns t) r1 = Ok tt →
  check_unique tbl (t_rows t) (t_columns t) r1 = Ok tt →
  (fk = true →
   check_foreign_keys s tbl (t_columns t) (t_constraints t) r1 = Ok tt) →
  exec_insert fk false tbl r s
  = Ok (<[key_of s tbl := OTable (store_row t r1)]> s).
Proof.
  intros Ht Hlen Ha Hn Hu Hf. unfold exec_insert.
  rewrite Ht, (bool_decide_eq_true_2 _ Hlen), Ha, Hn, Hu. cbn [negb].
  destruct fk; [|done]. by rewrite Hf.
Qed.

(** The per-column checks of a table whose first column is an
    AUTOINCREMENT key and whose other columns carry no constraint. *)
Lemma keyed_checks tbl k (t : table) rest m vals :
  t_columns t = Column k INTEGER [PRIMARY_KEY; AUTOINCREMENT] :: rest →
  Forall (λ c, cd_constraints c = []) rest →
  VInt m ∉ column_values (t_rows t) 0 →
  check_not_null tbl (t_columns t) (VInt m :: vals) = Ok tt
  ∧ check_unique tbl (t_rows t) (t_columns t) (VInt m :: vals) = Ok tt.
Proof.
  intros -> Hrest Hm. split.
  - cbn [check_not_null]. by apply check_not_null_plain.
  - apply check_unique_ok. intros [|i] c Hc.
    + injection Hc as <-. unfold collides. cbn [fst snd].
      change (cell (VInt m :: vals) 0) with (VInt m).
      by rewrite (bool_decide_eq_false_2 _ Hm), andb_false_r.
    + apply collides_plain. cbn in Hc.
      by apply (proj1 (Forall_lookup _ _) Hrest i c).
Qed.

(** Foreign keys that resolve, and are NULL or stored in their parent, pass
    the check. *)
Lemma check_foreign_keys_ok s tbl cols r fks :
  (∀ col p pcol, FOREIGN_KEY col p pcol ∈ fks →
     ∃ i pt j, column_index col cols = Some i
               ∧ find_object s p = Some (OTable pt)
               ∧ column_index pcol (t_columns pt) = Some j
               ∧ is_key_column (t_columns pt) j = true
               ∧ (cell r i = NULL ∨ cell r i ∈ column_values (t_rows pt) j)) →
  check_foreign_keys s tbl cols fks r = Ok tt.
Proof.
  intros H. unfold check_foreign_keys.
  assert (∃ l, resolve_foreign_keys s tbl cols fks = Ok l
               ∧ check_references r l = Ok tt) as (l & -> & Hl); [|done].
  induction fks as [|[col p pcol] fks IH]; [by exists []|].
  destruct (H col p pcol) as (i & pt & j & Hi & Hp & Hj & Hk & Hv); [by left|].
  destruct IH as (l & Hl & Hrefs); [intros; apply H; by right|].
  exists ((i, pt, j) :: l). cbn [resolve_foreign_keys check_references].
  rewrite Hi, Hp, Hj, Hk, Hl. cbn [negb]. split; [done|].
  destruct Hv as [Hv|Hv].
  - by rewrite (bool_decide_eq_true_2 _ Hv).
  - by rewrite (bool_decide_eq_true_2 _ Hv), orb_true_r.
Qed.

Lemma keyed_in_script c : c ∈ keyed_tables → c ∈ migration_script.
Proof.
  unfold keyed_tables, migration_script. rewrite !elem_of_cons. tauto.
Qed.

(** The seven keyed declarations: an AUTOINCREMENT key first, then columns
    without constraints, and every foreign key on a column behind the key,
    to the key (first column) of another table of the script. *)
Lemma keyed_shape c :
  c ∈ keyed_tables →
  ∃ k rest,
    ct_columns c = Column k INTEGER [PRIMARY_KEY; AUTOINCREMENT] :: rest
    ∧ Forall (λ c, cd_constraints c = []) rest
    ∧ ∀ col p pcol, FOREIGN_KEY col p pcol ∈ ct_constraints c →
        ∃ i pc, column_index col (ct_columns c) = Some (S i)
                ∧ pc ∈ migration_script ∧ ct_name pc = p ∧ p ≠ ct_name c
                ∧ column_index pcol (ct_columns pc) = Some 0%nat
                ∧ is_key_column (ct_columns pc) 0 = true.
Proof.
  unfold keyed_tables. intros Hc.
  repeat (apply elem_of_cons in Hc as [->|Hc]); [..|by apply elem_of_nil in Hc];
    eexists _, _; (split; [reflexivity|]); (split; [by repeat constructor|]);
    intros col p pcol Hfk; cbn [ct_constraints] in Hfk;
    repeat (apply elem_of_cons in Hfk as [[= -> -> ->]|Hfk]);
    try (by apply elem_of_nil in Hfk).
  - exists 0%nat, create_student. repeat split; try done. by repeat constructor.
  - exists 0%nat, create_student. repeat split; try done. by repeat constructor.
  - exists 1%nat, create_assessment. repeat split; try done.
    by repeat constructor.
  - exists 0%nat, create_student. repeat split; try done. by repeat constructor.
  - exists 0%nat, create_student. repeat split; try done. by repeat constructor.
Qed.

Lemma script_name_canonical c :
  c ∈ migration_script → canon (ct_name c) = ct_name c.
Proof. apply (proj1 (Forall_forall _ _) migration_script_canonical). Qed.

(** Storing a row in a table leaves the schema as it is. *)
Lemma has_schema_store_row s name t r :
  has_schema s = true → s !! name = Some (OTable t) →
  has_schema (<[name := OTable (store_row t r)]> s) = true.
Proof.
  unfold has_schema. rewrite !forallb_forall. intros H Ht c Hc.
  specialize (H c Hc). apply list_elem_of_In, script_name_canonical in Hc.
  unfold declared_as in *. rewrite (find_object_canon s _ Hc) in H.
  rewrite (find_object_canon _ _ Hc).
  destruct (decide (name = ct_name c)) as [->|Hne].
  - rewrite lookup_insert_eq. by rewrite Ht in H.
  - by rewrite lookup_insert_ne.
Qed.

(** A keyed table takes a row of the right length whose key is NULL and
    whose references hold, and gives it the next key. *)
Lemma keyed_insert_null w h c t vals k :
  conns w !! h = Some configured →
  busy w = false →
  has_schema (db w) = true →
  c ∈ keyed_tables →
  db w !! ct_name c = Some (OTable t) →
  t_columns t = ct_columns c → t_constraints t = ct_constraints c →
  length (NULL :: vals) = length (ct_columns c) →
  refs_ok (db w) c (NULL :: vals) →
  next_key true t 0 = Ok k →
  VInt k ∉ column_values (t_rows t) 0 →
  conn_execute h (INSERT_INTO (ct_name c) (NULL :: vals)) w
  = (Ok [],
     set_db (<[ct_name c := OTable (store_row t (VInt k :: vals))]> (db w)) w).
Proof.
  intros Hh Hbusy Hschema Hc Ht Htcols Htfks Hlen Hrefs Hk Hfree.
  destruct (keyed_shape c Hc) as (kn & rest & Hcols & Hrest & Hfkcols).
  pose proof (script_name_canonical c (keyed_in_script c Hc)) as Hcan.
  destruct (keyed_checks (ct_name c) kn t rest k vals) as (Hn & Hu);
    [congruence|done|done|].
  rewrite (conn_execute_insert _ _ _ _ _ Hh eq_refl), Hbusy.
  rewrite (exec_insert_checked true (ct_name c) t (NULL :: vals) (VInt k :: vals)).
  - by rewrite (key_of_canon _ _ Hcan).
  - by rewrite (find_object_canon _ _ Hcan).
  - by rewrite Htcols.
  - rewrite Htcols, Hcols. cbn [assign_row_key].
    change (is_row_key _) with true. cbv iota.
    change (has_constraint AUTOINCREMENT _) with true. by rewrite Hk.
  - done.
  - done.
  - intros _. apply check_foreign_keys_ok. intros col p pcol Hin.
    rewrite Htfks in Hin.
    destruct (Hfkcols col p pcol Hin) as (i & pc & Hi & Hpc & <- & _ & Hj & Hkey).
    destruct (has_schema_declared _ pc Hschema Hpc) as (pt & _ & Hpt & Hptcols & _).
    exists (S i), pt, 0%nat. rewrite Htcols, Hptcols.
    split; [done|]. split; [done|]. split; [done|]. split; [done|].
    specialize (Hrefs col (ct_name pc) pcol Hin). unfold row_field in Hrefs.
    rewrite Hi in Hrefs. destruct Hrefs as [?|Hst]; [by left|right].
    unfold stored in Hst. by rewrite Hpt, Hptcols, Hj in Hst.
Qed.

(** X9: AUTOINCREMENT keys are handed out in sequence.  On a store with
    the migrated schema, whose write lock is free and whose parent keys are
    held in the form their columns store them, two rows inserted one after
    the other over the same handle into one of the seven keyed tables, both
    leaving the key to the engine and each naming only parents that are
    stored (or none), get the keys k and k + 1, where k is larger than every
    key the table held; this as long as the table has two keys left before
    the last 64-bit integer. *)
Theorem autoincrement_keys_are_consecutive (w : world) (h : nat)
    (c : create_table) (r1 r2 : list value) :
  conns w !! h = Some configured →
  busy w = false →
  canonical (db w) →
  has_schema (db w) = true →
  Forall text_or_null (stored (db w) "student" "student_id") →
  Forall is_int (stored (db w) "assessment" "assessment_id") →
  c ∈ keyed_tables →
  length r1 = length (ct_columns c) → length r2 = length (ct_columns c) →
  ints_in_range r1 → ints_in_range r2 →
  cell r1 0 = NULL → cell r2 0 = NULL →
  refs_ok (db w) c r1 → refs_ok (db w) c r2 →
  keys_left 2 (db w) (ct_name c) →
  ∃ k w1 w2,
    conn_execute h (INSERT_INTO (ct_name c) r1) w = (Ok [], w1)
    ∧ conn_execute h (INSERT_INTO (ct_name c) r2) w1 = (Ok [], w2)
    ∧ stored_keys (db w2) (ct_name c)
      = (stored_keys (db w) (ct_name c) ++ [VInt k; VInt (k + 1)])%list
    ∧ (k + 1 ≤ max_rowid)%Z
    ∧ ∀ n, VInt n ∈ stored_keys (db w) (ct_name c) → (n < k)%Z.
Proof.
  intros Hh Hbusy _ Hschema _ _ Hc Hlen1 Hlen2 _ _ Hk1 Hk2 Hrefs1 Hrefs2 Hleft.
  pose proof (script_name_canonical c (keyed_in_script c Hc)) as Hcan.
  destruct (has_schema_declared _ c Hschema (keyed_in_script c Hc))
    as (t & Ht & Hfind & Htcols & Htfks).
  destruct (keyed_shape c Hc) as (kn & rest & Hcols & _ & Hfkcols).
  destruct r1 as [|kv1 vals1]; [by rewrite Hcols in Hlen1|].
  destruct r2 as [|kv2 vals2]; [by rewrite Hcols in Hlen2|].
  change (kv1 = NULL) in Hk1. change (kv2 = NULL) in Hk2. subst kv1 kv2.
  unfold keys_left in Hleft. rewrite Hfind in Hleft. destruct Hleft as [Hseq Hkeys].
  destruct (next_key_ok true t 0) as (k & Hk & Hfree & Hmax & Hlt & Hsq & Hmin).
  { lia. }
  { intros n Hn%Hkeys. lia. }
  assert (Hk2 : (k + 1 ≤ max_rowid)%Z).
  { assert (k ≤ max_rowid - 1)%Z; [|lia]. apply Hmin.
    - intros n Hn%Hkeys. lia.
    - intros _. lia.
    - intros _. unfold max_rowid. lia. }
  set (t1 := store_row t (VInt k :: vals1)).
  set (w1 := set_db (<[ct_name c := OTable t1]> (db w)) w).
  assert (E1 : conn_execute h (INSERT_INTO (ct_name c) (NULL :: vals1)) w
               = (Ok [], w1)) by by apply keyed_insert_null.
  assert (Hrows1 : column_values (t_rows t1) 0
                   = (column_values (t_rows t) 0 ++ [VInt k])%list).
  { unfold t1, store_row, column_values. cbn [t_rows]. by rewrite fmap_app. }
  assert (Hseq1 : t_seq t1 = k).
  { unfold t1, store_row. cbn [t_seq t_columns]. rewrite Htcols, Hcols.
    change (row_key _ (VInt k :: vals1)) with k. specialize (Hsq eq_refl). lia. }
  destruct (next_key_ok true t1 0) as (k' & Hk' & Hfree' & _ & Hlt' & Hsq' & Hmin').
  { lia. }
  { rewrite Hrows1. intros n [Hn%Hkeys|Hn%list_elem_of_singleton]%elem_of_app.
    - lia.
    - injection Hn as ->. lia. }
  assert (k' = k + 1)%Z as ->.
  { assert (k < k')%Z by (apply Hlt'; rewrite Hrows1, elem_of_app; right; by left).
    assert (k' ≤ k + 1)%Z; [|lia]. apply Hmin'.
    - rewrite Hrows1. intros n [Hn%Hlt|Hn%list_elem_of_singleton]%elem_of_app.
      + lia.
      + injection Hn as ->. lia.
    - intros _. lia.
    - intros Hno. destruct (Hno k). rewrite Hrows1, elem_of_app. right. by left. }
  assert (E2 : conn_execute h (INSERT_INTO (ct_name c) (NULL :: vals2)) w1
               = (Ok [],
                  set_db (<[ct_name c :=
                             OTable (store_row t1 (VInt (k + 1) :: vals2))]>
                            (db w1)) w1)).
  { apply keyed_insert_null; try done.
    - unfold w1, set_db. cbn [db]. by apply has_schema_store_row.
    - unfold w1, set_db. cbn [db]. apply lookup_insert_eq.
    - intros col p pcol Hin. destruct (Hrefs2 col p pcol Hin) as [?|Hst]; [by left|].
      right. destruct (Hfkcols col p pcol Hin) as (i & pc & _ & Hpc & <- & Hne & _).
      unfold stored in *. unfold w1, set_db. cbn [db].
      rewrite (find_object_canon (db w) _ (script_name_canonical pc Hpc)) in Hst.
      rewrite (find_object_canon _ _ (script_name_canonical pc Hpc)).
      by rewrite lookup_insert_ne by (intros E; by apply Hne). }
  eexists k, w1, _. split; [exact E1|]. split; [exact E2|].
  unfold stored_keys. rewrite Hfind. unfold set_db at 1. cbn [db].
  rewrite (find_object_canon _ _ Hcan), lookup_insert_eq.
  split; [|done].
  unfold store_row at 1, column_values. cbn [t_rows].
  rewrite fmap_app. fold (column_values (t_rows t1) 0). rewrite Hrows1.
  by rewrite <- app_assoc.
Qed.

Lemma john_world_canonical : canonical (db john_world).
Proof.
  change (db john_world)
    with (<["student" := OTable (store_row (new_table create_student) student_john)]>
            (run_script false migration_script ∅).2).
  apply map_Forall_insert_2; [done|].
  apply run_script_canonical, map_Forall_empty.
Qed.

Lemma autoincrement_keys_are_consecutive_witness :
  ∃ k w1 w2,
    conn_execute connected_handle (INSERT_INTO "attendance" attendance_row_john)
      john_world = (Ok [], w1)
    ∧ conn_execute connected_handle (INSERT_INTO "attendance" attendance_row_no_student)
        w1 = (Ok [], w2)
    ∧ stored_keys (db w2) "attendance"
      = (stored_keys (db john_world) "attendance" ++ [VInt k; VInt (k + 1)])%list.
Proof.
  destruct (autoincrement_keys_are_consecutive john_world connected_handle
              create_attendance attendance_row_john attendance_row_no_student)
    as (k & w1 & w2 & H1 & H2 & H3 & _).
  - reflexivity.
  - reflexivity.
  - apply john_world_canonical.
  - reflexivity.
  - repeat constructor.
  - constructor.
  - apply list_elem_of_here.
  - reflexivity.
  - reflexivity.
  - repeat constructor.
  - repeat constructor.
  - reflexivity.
  - reflexivity.
  - intros col p pcol [= -> -> ->]%list_elem_of_singleton.
    right. apply list_elem_of_here.
  - intros col p pcol [= -> -> ->]%list_elem_of_singleton.
    left. reflexivity.
  - unfold keys_left.
    change (find_object (db john_world) (ct_name create_attendance))
      with (Some (OTable (new_table create_attendance))).
    split; [cbn; unfold max_rowid; lia|].
    intros n Hn. by apply elem_of_nil in Hn.
  - exists k, w1, w2. exact (conj H1 (conj H2 H3)).
Defined.



Lemma unused_collides v held :
  negb (bool_decide (v = NULL)) && bool_decide (v ∈ held)
  = negb (bool_decide (unused v held)).
Proof.
  unfold unused. destruct (decide (v = NULL)) as [Hv|Hv].
  - rewrite (bool_decide_eq_true_2 _ Hv).
    by rewrite (bool_decide_eq_true_2 (v = NULL ∨ v ∉ held)) by by left.
  - rewrite (bool_decide_eq_false_2 _ Hv). cbn [negb andb].
    destruct (decide (v ∈ held)) as [Hin|Hin].
    + rewrite (bool_decide_eq_true_2 _ Hin).
      by rewrite (bool_decide_eq_false_2 (v = NULL ∨ v ∉ held)) by by intros [?|?].
    + rewrite (bool_decide_eq_false_2 _ Hin).
      by rewrite (bool_decide_eq_true_2 (v = NULL ∨ v ∉ held)) by by right.
Qed.

(** X11: student_id identifies a student.  Once a student row with a text
    as its student_id is stored in the student table as run_migrations
    declares it, a second student row with the same student_id, its
    integers fitting in 64 bits, is rejected over any open connection (the
    write lock being free) with a uniqueness violation, and nothing
    changes.  The
    violation is reported on student.student_id when the row's email is
    NULL, or a text that no stored student has, and on student.email
    otherwise. *)
Theorem student_id_is_unique (w : world) (h : nat) (k : connection)
    (t : table) (r0 r : list value) (sid : string) :
  conns w !! h = Some k → closed k = false →
  busy w = false →
  db w !! "student" = Some (OTable t) →
  t_columns t = ct_columns create_student →
  t_constraints t = ct_constraints create_student →
  Forall text_or_null (stored (db w) "student" "student_id") →
  Forall text_or_null (stored (db w) "student" "email") →
  r0 ∈ t_rows t →
  row_field create_student "student_id" r0 = VText sid →
  length r = length (ct_columns create_student) →
  ints_in_range r →
  row_field create_student "student_id" r = VText sid →
  text_or_null (row_field create_student "email" r) →
  conn_execute h (INSERT_INTO "student" r) w
  = (Raise (IntegrityError
              (UNIQUE_failed "student"
                 (if bool_decide (unused (row_field create_student "email" r)
                                    (stored (db w) "student" "email"))
                  then "student_id" else "email"))), w).
Proof.
  intros Hh Hc _ Ht Hcols _ _ _ Hr0 Hid0 Hlen _ Hid _.
  rewrite (conn_execute_insert _ _ _ _ _ Hh Hc).
  unfold stored. unfold exec_insert.
  rewrite (find_object_hit _ _ _ Ht), Hcols, Hlen.
  rewrite bool_decide_eq_true_2 by done. cbn [negb].
  destruct r as [|v0 [|v1 [|v2 [|v3 [|v4 [|v5 [|]]]]]]]; try done.
  change (row_field create_student "student_id" [v0; v1; v2; v3; v4; v5])
    with v0 in Hid.
  change (row_field create_student "email" [v0; v1; v2; v3; v4; v5]) with v3.
  change (row_field create_student "student_id" r0) with (cell r0 0) in *.
  change (column_index "email" (ct_columns create_student)) with (Some 3).
  cbv beta iota. subst v0.
  assert (Hin : VText sid ∈ column_values (t_rows t) 0).
  { rewrite <- Hid0. by apply (list_elem_of_fmap_2 (λ r, cell r 0)). }
  assert (assign_row_key t (ct_columns create_student) 0
            [VText sid; v1; v2; v3; v4; v5]
          = Ok [VText sid; v1; v2; v3; v4; v5]) as -> by reflexivity.
  assert (check_not_null "student" (ct_columns create_student)
            [VText sid; v1; v2; v3; v4; v5] = Ok tt) as -> by reflexivity.
  unfold check_unique.
  change (unique_order (ct_columns create_student))
    with [ (5%nat, Column "year" INTEGER []);
           (4%nat, Column "password" TEXT []);
           (3%nat, Column "email" TEXT [UNIQUE]);
           (2%nat, Column "lastname" TEXT []);
           (1%nat, Column "first_name" TEXT []);
           (0%nat, Column "student_id" TEXT [PRIMARY_KEY]) ].
  cbn [List.find]. rewrite !collides_plain by done.
  unfold collides. cbn [fst snd].
  change (has_constraint PRIMARY_KEY (Column "email" TEXT [UNIQUE])
          || has_constraint UNIQUE (Column "email" TEXT [UNIQUE])) with true.
  change (has_constraint PRIMARY_KEY (Column "student_id" TEXT [PRIMARY_KEY])
          || has_constraint UNIQUE (Column "student_id" TEXT [PRIMARY_KEY]))
    with true.
  change (cell [VText sid; v1; v2; v3; v4; v5] 3) with v3.
  change (cell [VText sid; v1; v2; v3; v4; v5] 0) with (VText sid).
  cbn [andb]. rewrite (bool_decide_eq_true_2 _ Hin).
  rewrite (bool_decide_eq_false_2 (VText sid = NULL)) by done. cbn [negb andb].
  rewrite unused_collides.
  by destruct (bool_decide (unused v3 (column_values (t_rows t) 3))).
Qed.

Lemma student_id_is_unique_witness :
  conn_execute connected_handle (INSERT_INTO "student" student_john_again) john_world
  = (Raise (IntegrityError (UNIQUE_failed "student" "student_id")), john_world).
Proof.
  apply (student_id_is_unique john_world connected_handle configured
           {| t_columns := ct_columns create_student;
              t_constraints := ct_constraints create_student;
              t_rows := [student_john]; t_seq := 0 |} student_john
           student_john_again "S001").
  - reflexivity.
  - reflexivity.
  - reflexivity.
  - reflexivity.
  - reflexivity.
  - reflexivity.
  - repeat constructor.
  - repeat constructor.
  - apply list_elem_of_here.
  - reflexivity.
  - reflexivity.
  - repeat constructor; unfold int64, max_rowid; lia.
  - reflexivity.
  - exact I.
Defined.

(** X12: a submission needs an existing assessment.  On a store with the
    migrated schema, whose assessment keys are integers, over an open
    handle as get_db_connection configures it, a submission row whose
    assessment_id is an integer that is not the key of a stored assessment
    is rejected with the foreign-key violation, whether or not its student
    exists; nothing changes.  The row's own key is left to the engine
    (which has a key left) or is an unused integer, and its integers fit in
    64 bits. *)
Theorem submission_requires_assessment (w : world) (h : nat) (r : list value)
    (aid : Z) :
  conns w !! h = Some configured →
  busy w = false →
  canonical (db w) →
  has_schema (db w) = true →
  Forall is_int (stored (db w) "assessment" "assessment_id") →
  length r = length (ct_columns create_submission) →
  ints_in_range r →
  key_free (db w) "submission" r →
  row_field create_submission "assessment_id" r = VInt aid →
  VInt aid ∉ stored (db w) "assessment" "assessment_id" →
  conn_execute h (INSERT_INTO "submission" r) w
  = (Raise (IntegrityError FOREIGN_KEY_failed), w).
Proof.
  intros Hh Hbusy _ Hschema _ Hlen _ Hkey Haid Hmiss.
  destruct (has_schema_declared _ create_submission Hschema)
    as (t & _ & Ht & Htcols & Htfks); [by repeat constructor|].
  destruct (has_schema_declared _ create_assessment Hschema)
    as (a & _ & Ha & Hacols & _); [by repeat constructor|].
  destruct (has_schema_declared _ create_student Hschema)
    as (p & _ & Hp & Hpcols & _); [by repeat constructor|].
  change (ct_name create_submission) with "submission" in Ht.
  change (ct_name create_assessment) with "assessment" in Ha.
  change (ct_name create_student) with "student" in Hp.
  unfold key_free, keys_left, stored_keys in Hkey. rewrite Ht in Hkey.
  unfold stored in Hmiss. rewrite Ha, Hacols in Hmiss.
  change (column_index "assessment_id" (ct_columns create_assessment))
    with (Some 0) in Hmiss. cbv beta iota in Hmiss.
  destruct r as [|kv [|sid [|av vals]]]; try done.
  change (cell (kv :: sid :: av :: vals) 0) with kv in Hkey.
  change (row_field create_submission "assessment_id" (kv :: sid :: av :: vals))
    with av in *. subst av.
  destruct (assign_first_key t "submission_id"
              (tail (ct_columns create_submission)) kv (sid :: VInt aid :: vals))
    as (m & Hm & Hfree).
  { destruct Hkey as [(-> & H1 & H2)|Hkey]; [left|by right].
    split; [done|]. split; [lia|]. intros n Hn%H2. lia. }
  destruct (keyed_checks "submission" "submission_id" t
              (tail (ct_columns create_submission)) m (sid :: VInt aid :: vals))
    as (Hn & Hu); [done|by repeat constructor|done|].
  rewrite (conn_execute_insert _ _ _ _ _ Hh eq_refl).
  unfold exec_insert. rewrite Ht, Hlen, Htcols.
  rewrite bool_decide_eq_true_2 by done. cbn [negb foreign_keys configured].
  change (ct_columns create_submission)
    with (Column "submission_id" INTEGER [PRIMARY_KEY; AUTOINCREMENT]
            :: tail (ct_columns create_submission)) at 1.
  rewrite Hm. rewrite <- Htcols, Hn, Hu, Htcols, Htfks.
  unfold check_foreign_keys.
  cbn [resolve_foreign_keys ct_constraints create_submission].
  change (column_index "student_id" (ct_columns create_submission)) with (Some 1).
  change (column_index "assessment_id" (ct_columns create_submission)) with (Some 2).
  cbv beta iota. rewrite Ha, Hacols, Hp, Hpcols.
  change (column_index "assessment_id" (ct_columns create_assessment)) with (Some 0).
  change (column_index "student_id" (ct_columns create_student)) with (Some 0).
  cbv beta iota.
  change (is_key_column (ct_columns create_student) 0) with true.
  change (is_key_column (ct_columns create_assessment) 0) with true.
  cbn [negb check_references].
  change (cell (VInt m :: sid :: VInt aid :: vals) 2) with (VInt aid).
  rewrite (bool_decide_eq_false_2 (VInt aid = NULL)) by done.
  rewrite (bool_decide_eq_false_2 _ Hmiss). cbn [orb].
  by destruct (_ || _).
Qed.

Lemma submission_requires_assessment_witness :
  conn_execute connected_handle (INSERT_INTO "submission" submission_row_no_assessment)
    john_world
  = (Raise (IntegrityError FOREIGN_KEY_failed), john_world).
Proof.
  apply (submission_requires_assessment john_world connected_handle
           submission_row_no_assessment 999).
  - reflexivity.
  - reflexivity.
  - apply john_world_canonical.
  - reflexivity.
  - constructor.
  - reflexivity.
  - repeat constructor; unfold int64, max_rowid; lia.
  - left. split; [reflexivity|]. unfold keys_left.
    change (find_object (db john_world) "submission")
      with (Some (OTable (new_table create_submission))).
    split; [cbn; unfold max_rowid; lia|].
    intros n Hn. by apply elem_of_nil in Hn.
  - reflexivity.
  - apply not_elem_of_nil.
Defined.

(** ** Rows keep the shape of their table *)

Lemma assign_row_key_length t cols : ∀ i r r1,
  assign_row_key t cols i r = Ok r1 → length r1 = length r.
Proof.
  induction cols as [|c cols IH]; intros i r r1 H.
  - destruct r; by simplify_eq/=.
  - destruct r as [|v r]; [by simplify_eq/=|]. cbn [assign_row_key] in H.
    destruct (is_row_key c).
    + destruct v; try by simplify_eq/=.
      destruct (next_key _ t i); by simplify_eq/=.
    + destruct (assign_row_key t cols (S i) r) as [r'|] eqn:E; [|done].
      simplify_eq/=. by rewrite (IH _ _ _ E).
Qed.

Lemma exec_create_rows_fit b ct s s' :
  exec_create b ct s = Ok s' → rows_fit s → rows_fit s'.
Proof.
  unfold exec_create. intros H Hs.
  destruct (find_object s (ct_name ct)) as [[t| |ix]|] eqn:E.
  - destruct (ct_if_not_exists ct); by simplify_eq.
  - destruct (ct_if_not_exists ct); by simplify_eq.
  - done.
  - destruct b; simplify_eq. intros tbl t r Ht Hr.
    destruct (decide (canon (ct_name ct) = tbl)) as [<-|Hne].
    + rewrite lookup_insert_eq in Ht. simplify_eq. by apply elem_of_nil in Hr.
    + rewrite lookup_insert_ne in Ht by done. eauto.
Qed.

Lemma exec_insert_rows_fit fk b tbl r s s' :
  exec_insert fk b tbl r s = Ok s' → rows_fit s → rows_fit s'.
Proof.
  intros (t & r1 & Ht & Hlen & Ha & ->)%exec_insert_inv Hs tbl' t' r' Ht' Hr'.
  destruct (decide (key_of s tbl = tbl')) as [<-|Hne].
  - rewrite lookup_insert_eq in Ht'. simplify_eq. cbn [store_row t_rows t_columns] in *.
    apply elem_of_app in Hr' as [Hr'|Hr'%list_elem_of_singleton]; [eauto|].
    subst. by rewrite (assign_row_key_length _ _ _ _ _ Ha).
  - rewrite lookup_insert_ne in Ht' by done. eauto.
Qed.

Lemma run_script_rows_fit b l : ∀ s, rows_fit s → rows_fit (run_script b l s).2.
Proof.
  induction l as [|c l IH]; intros s Hs; [done|]. cbn [run_script].
  destruct (exec_create b c s) eqn:E; [|done].
  eauto using exec_create_rows_fit.
Qed.

Lemma perform_rows_fit call w : rows_fit (db w) → rows_fit (db (perform call w)).
Proof.
  intros Hs. destruct call as [| | |h stmt|h|h]; unfold perform.
  - by rewrite get_db_connection_eq.
  - unfold get_db_pool. by rewrite get_db_connection_eq.
  - rewrite run_migrations_db. by apply run_script_rows_fit.
  - unfold conn_execute, bind, the_open.
    destruct (conns w !! h) as [k|]; [|done].
    destruct (closed k); [done|].
    destruct stmt as [ct|on|tbl r|tbl]; cbn [snd]; [| done | |].
    + destruct (exec_create (busy w) ct (db w)) eqn:E; [|done].
      cbn [snd set_db db]. eauto using exec_create_rows_fit.
    + destruct (exec_insert (foreign_keys k) (busy w) tbl r (db w)) eqn:E; [|done].
      cbn [snd set_db db]. eauto using exec_insert_rows_fit.
    + by destruct (exec_select_all tbl (db w)) as [[names rows]|].
  - unfold conn_commit, bind, the_open, ret.
    destruct (conns w !! h) as [k|]; [|done]. by destruct (closed k).
  - by rewrite conn_close_db.
Qed.

Lemma name_index_elem name names :
  name ∈ names → ∃ i, name_index name names = Some i ∧ (i < length names)%nat.
Proof.
  induction names as [|n names IH]; intros H; [by apply elem_of_nil in H|].
  cbn [name_index]. destruct (decide (canon n = canon name)) as [Heq|Hne].
  - exists 0%nat. split; [done|]. cbn. lia.
  - apply elem_of_cons in H as [?|H]; [congruence|].
    destruct (IH H) as (i & -> & Hi). exists (S i). split; [done|]. cbn. lia.
Qed.

(** X14: rows keep the shape of their table, so reading a fetched row by
    column name never fails.  If every stored row has one value per column,
    this is still so after any sequence of calls of this layer; and then
    every row that SELECT returns over an open handle as get_db_connection
    configures it yields a value under each column name of its table. *)
Theorem fetched_rows_read_by_name (w : world) (cs : list api_call) (h : nat)
    (tbl : string) (t : table) (row : pyrow) (col : string) :
  rows_fit (db w) →
  conns (perform_all cs w) !! h = Some configured →
  db (perform_all cs w) !! tbl = Some (OTable t) →
  row ∈ fetched (conn_execute h (SELECT_ALL tbl) (perform_all cs w)).1 →
  col ∈ cd_name <$> t_columns t →
  rows_fit (db (perform_all cs w))
  ∧ ∃ v, row_getitem_str row col = Ok v.
Proof.
  intros Hs Hh Ht Hrow Hcol.
  assert (Hfit : rows_fit (db (perform_all cs w))).
  { clear Hh Ht Hrow. revert w Hs. induction cs as [|c cs IH]; intros w Hs; [done|].
    cbn [perform_all foldl]. by apply IH, perform_rows_fit. }
  split; [done|].
  rewrite (conn_execute_select _ _ _ _ Hh eq_refl) in Hrow.
  unfold exec_select_all in Hrow. rewrite (find_object_hit _ _ _ Ht) in Hrow.
  unfold make_row in Hrow. cbn [fst fetched row_factory configured] in Hrow.
  apply list_elem_of_fmap in Hrow as (vals & -> & Hvals).
  rewrite select_order_Permutation in Hvals.
  destruct (name_index_elem _ _ Hcol) as (i & Hi & Hlt).
  unfold row_getitem_str. rewrite Hi.
  rewrite length_fmap, <- (Hfit _ _ _ Ht Hvals) in Hlt.
  destruct (lookup_lt_is_Some_2 vals i Hlt) as [v ->]. by exists v.
Qed.

Lemma fetched_rows_read_by_name_witness :
  ∃ v, row_getitem_str (PyRow (column_names create_student) student_john)
         "first_name" = Ok v.
Proof.
  destruct (fetched_rows_read_by_name connected_world
              [call_execute connected_handle (INSERT_INTO "student" student_john)]
              connected_handle "student"
              {| t_columns := ct_columns create_student;
                 t_constraints := ct_constraints create_student;
                 t_rows := [student_john]; t_seq := 0 |}
              (PyRow (column_names create_student) student_john) "first_name")
    as [_ H].
  - change (rows_fit (run_script false migration_script ∅).2).
    apply run_script_rows_fit. intros ? ? ? Hemp. by rewrite lookup_empty in Hemp.
  - reflexivity.
  - reflexivity.
  - apply list_elem_of_here.
  - right. left.
  - exact H.
Defined.

(** ** Data records *)

(** X15: the status enumeration and its stored strings.  Looking a member
    up by value succeeds exactly for the three strings Present, Absent and
    Excused, spelt exactly so, and gives the member whose value it is; in
    particular different members never share a value, and the value of a
    member always finds that member again. *)
Theorem AttendanceStatus_value_round_trip (v : string)
    (m : AttendanceStatus.AttendanceStatus) :
  (AttendanceStatus_of_value v = Some m ↔ v = AttendanceStatus.str_value m)
  ∧ AttendanceStatus_of_value (AttendanceStatus.str_value m) = Some m
  ∧ (AttendanceStatus_of_value v = None ↔ v ∉ ["Present"; "Absent"; "Excused"]).
Proof.
  split; [|split].
  - split.
    + unfold AttendanceStatus_of_value, AttendanceStatus_members.
      rewrite !filter_cons, filter_nil.
      repeat case_decide; cbn [head]; intros Hv; simplify_eq; done.
    + intros ->. by destruct m.
  - by destruct m.
  - unfold AttendanceStatus_of_value, AttendanceStatus_members.
    rewrite !filter_cons, filter_nil, !not_elem_of_cons.
    cbn [AttendanceStatus.str_value].
    repeat case_decide; cbn [head]; split; intros Hv; try done;
      try (destruct Hv as (? & ? & ? & _); congruence).
    repeat split; try congruence. apply not_elem_of_nil.
Qed.

Lemma no_space_cons c s :
  no_space (String c s) = true → c ≠ " "%char ∧ no_space s = true.
Proof.
  cbn [no_space]. intros [H1 H2]%andb_true_iff. split; [|done].
  by apply negb_true_iff, bool_decide_eq_false in H1.
Qed.

Lemma space_separated_inj a1 : ∀ a2 b1 b2,
  no_space a1 = true → no_space a2 = true →
  a1 +:+ " " +:+ b1 = a2 +:+ " " +:+ b2 → a1 = a2 ∧ b1 = b2.
Proof.
  induction a1 as [|c1 a1 IH]; intros [|c2 a2] b1 b2 H1 H2 E; cbn in E.
  - by simplify_eq.
  - apply no_space_cons in H2 as [H2 _]. by simplify_eq.
  - apply no_space_cons in H1 as [H1 _]. by simplify_eq.
  - apply no_space_cons in H1 as [_ H1]. apply no_space_cons in H2 as [_ H2].
    injection E as -> E. by destruct (IH _ _ _ H1 H2 E) as [-> ->].
Qed.

(** X16: what full_name tells apart.  Among students whose first names
    contain no space, the full name determines both the first name and the
    last name: two such students with the same full name have the same
    first name and the same last name. *)
Theorem full_name_determines_names (s1 s2 : Student.Student) :
  no_space (Student.first_name s1) = true →
  no_space (Student.first_name s2) = true →
  Student.full_name s1 = Student.full_name s2 →
  Student.first_name s1 = Student.first_name s2
  ∧ Student.lastname s1 = Student.lastname s2.
Proof. unfold Student.full_name. apply space_separated_inj. Qed.

Lemma full_name_determines_names_witness :
  Student.full_name student_ada = "Ada King Lovelace"
  ∧ Student.first_name student_ada = Student.first_name student_ada
  ∧ Student.lastname student_ada = Student.lastname student_ada.
Proof.
  split; [reflexivity|].
  apply (full_name_determines_names student_ada student_ada); reflexivity.
Defined.

(** Without the condition the full name is ambiguous: a space in the first
    name cannot be told from the separator. *)
Lemma full_name_ambiguous :
  Student.full_name
    {| Student.student_id := "S011"; Student.first_name := "Ada King";
       Student.lastname := "Lovelace"; Student.email := "a@example.com";
       Student.password := "x"; Student.year := "1" |}
  = Student.full_name student_ada.
Proof. reflexivity. Qed.
